(** * docs/create_html_pages.py: markdown to HTML conversion

    A shallow embedding of [markdown_to_html_simple] and [main].

    Python [str] values are sequences of Unicode code points; they are
    modelled as lists of code points.  The regular expressions of the
    converter are run by a small backtracking matcher that follows the
    semantics of Python's [re] module for the constructs the converter
    uses (literals, [.], [^], [$], [.+] [.+?] [.*], one capture group,
    the MULTILINE and DOTALL flags), and [re.sub] is the scanning loop
    around it.  The loop runs on fuel; that the fuel it is given is
    enough is a theorem.

    The driver runs in a [world]: what the paths below the project
    root hold, which of them may not be written, the directories, and
    the printed lines.  A source that cannot be read as text, or an
    output that cannot be written, raises, and nothing in the driver
    catches it. *)

From Stdlib Require Import List NArith Arith Bool Lia Ascii String.
From stdpp Require Import gmap.
Import ListNotations.

Local Open Scope list_scope.
Local Open Scope nat_scope.

(** ** Strings *)

Definition char := N.
Definition str := list char.

Definition ord (a : ascii) : char := N_of_ascii a.

(** A Python string literal whose characters are all ASCII. *)
Fixpoint lit (s : string) : str :=
  match s with
  | EmptyString => []
  | String a s' => ord a :: lit s'
  end.
Arguments lit _%_string.

Definition nl : char := 10%N.        (* '\n' *)
Definition dquote : char := 34%N.    (* the double quote *)
Definition star_sign : char := 42%N. (* '*' *)

(** A literal between double quotes, as the attribute values of the shell. *)
Definition quoted (s : str) : str := dquote :: s ++ [dquote].

Definition char_eqb (a b : char) : bool := N.eqb a b.
Arguments char_eqb : simpl never.

Fixpoint str_eqb (a b : str) : bool :=
  match a, b with
  | [], [] => true
  | x :: a', y :: b' => char_eqb x y && str_eqb a' b'
  | _, _ => false
  end.

(** [strip_prefix p s] is [Some rest] when [s = p ++ rest]. *)
Fixpoint strip_prefix (p s : str) : option str :=
  match p with
  | [] => Some s
  | x :: p' =>
      match s with
      | y :: s' => if char_eqb x y then strip_prefix p' s' else None
      | [] => None
      end
  end.

(** [str.startswith] *)
Definition startswith (s p : str) : bool :=
  match strip_prefix p s with Some _ => true | None => false end.

(** [sep.join(parts)] *)
Fixpoint join (sep : str) (parts : list str) : str :=
  match parts with
  | [] => []
  | [p] => p
  | p :: ps => p ++ sep ++ join sep ps
  end.

(** [s.split(c)] for a separator of one character: never empty, and
    [''.split(c) = ['']]. *)
Fixpoint split (c : char) (s : str) : list str :=
  match s with
  | [] => [[]]
  | x :: s' =>
      if char_eqb x c then [] :: split c s'
      else match split c s' with
           | l :: ls => (x :: l) :: ls
           | [] => [[x]]
           end
  end.

(** The characters [str.strip()] removes: those for which CPython's
    [Py_UNICODE_ISSPACE] holds. *)
Definition isspace (c : char) : bool :=
  ((9 <=? c) && (c <=? 13) || (28 <=? c) && (c <=? 32)
   || (c =? 133) || (c =? 160) || (c =? 5760)
   || (8192 <=? c) && (c <=? 8202)
   || (c =? 8232) || (c =? 8233) || (c =? 8239) || (c =? 8287)
   || (c =? 12288))%N.

Fixpoint lstrip (s : str) : str :=
  match s with
  | c :: s' => if isspace c then lstrip s' else s
  | [] => []
  end.

Definition rstrip (s : str) : str := rev (lstrip (rev s)).

(** [s.strip()] *)
Definition strip (s : str) : str := rstrip (lstrip s).

(** [s.replace(old, new)] for a non-empty [old]: the occurrences of
    [old] are replaced from left to right, without overlap.  [skip]
    counts the characters of an occurrence that remain to be dropped. *)
Fixpoint replace_from (old new : str) (skip : nat) (s : str) : str :=
  match s with
  | [] => []
  | c :: s' =>
      match skip with
      | S k => replace_from old new k s'
      | O =>
          if startswith s old
          then new ++ replace_from old new (List.length old - 1) s'
          else c :: replace_from old new 0 s'
      end
  end.

Definition replace (s old new : str) : str := replace_from old new 0 s.

(** ** Outcomes of a computation *)

Inductive error :=
| InvalidGroupReference (n : nat)   (* re.error *)
| UnicodeDecodeError                (* read() of bytes that are not UTF-8 *)
| OSError.                          (* open() refused: a directory, no permission,
                                       no such file *)

Inductive result (A : Type) :=
| Ret (a : A)
| Raise (e : error)
| OutOfFuel.
Arguments Ret {A} a.
Arguments Raise {A} e.
Arguments OutOfFuel {A}.

Definition bind {A B : Type} (m : result A) (f : A -> result B) : result B :=
  match m with
  | Ret a => f a
  | Raise e => Raise e
  | OutOfFuel => OutOfFuel
  end.

Notation "'let*' x ':=' m 'in' k" := (bind m (fun x => k))
  (at level 10, x name, m at level 100, k at level 200).

(** ** Regular expressions *)

Module Re.

Record flags := { MULTILINE : bool; DOTALL : bool }.

Definition no_flags := {| MULTILINE := false; DOTALL := false |}.
Definition multiline := {| MULTILINE := true; DOTALL := false |}.
Definition dotall := {| MULTILINE := false; DOTALL := true |}.

Inductive greed := Greedy | Lazy.

(** The patterns of the converter repeat nothing but [.]. *)
Inductive regex :=
| Lit (s : str)                (* literal text *)
| Any                          (* .   *)
| Bol                          (* ^   *)
| Eol                          (* $   *)
| Star (g : greed)             (* .*  and .*? *)
| Plus (g : greed)             (* .+  and .+? *)
| Group (n : nat) (r : regex)  (* (r), the n-th group *)
| Seq (r1 r2 : regex).

(** The captured groups, most recent first. *)
Definition groups := list (nat * str).

Fixpoint group (g : groups) (n : nat) : str :=
  match g with
  | [] => []
  | (m, s) :: g' => if Nat.eqb m n then s else group g' n
  end.

(** A match in progress: the character before the current position
    ([None] at the start of the string), the rest of the string, and
    the groups captured so far. *)
Definition found := (groups * option char * str)%type.
Definition cont := option char -> str -> groups -> option found.

Definition any_ok (fl : flags) (c : char) : bool :=
  DOTALL fl || negb (char_eqb c nl).

Definition at_bol (fl : flags) (prev : option char) : bool :=
  match prev with
  | None => true
  | Some c => MULTILINE fl && char_eqb c nl
  end.

Definition at_eol (fl : flags) (s : str) : bool :=
  match s with
  | [] => true
  | c :: s' =>
      char_eqb c nl && (MULTILINE fl || match s' with [] => true | _ => false end)
  end.

Definition last_seen (prev : option char) (l : str) : option char :=
  fold_left (fun _ c => Some c) l prev.

(** Greedy repetition: take as many characters as possible, and give
    them back one at a time while the rest of the pattern fails. *)
Fixpoint star_greedy (ok : char -> bool) (k : cont)
    (prev : option char) (s : str) (g : groups) : option found :=
  match s with
  | c :: s' =>
      if ok c then
        match star_greedy ok k (Some c) s' g with
        | Some r => Some r
        | None => k prev s g
        end
      else k prev s g
  | [] => k prev s g
  end.

(** Lazy repetition: try the rest of the pattern first, and take one
    more character each time it fails. *)
Fixpoint star_lazy (ok : char -> bool) (k : cont)
    (prev : option char) (s : str) (g : groups) : option found :=
  match k prev s g with
  | Some r => Some r
  | None =>
      match s with
      | c :: s' => if ok c then star_lazy ok k (Some c) s' g else None
      | [] => None
      end
  end.

Definition star (gr : greed) :=
  match gr with Greedy => star_greedy | Lazy => star_lazy end.

(** [rmatch fl r k prev s g] matches [r] at the current position and
    hands what follows to the continuation [k]; [None] when every way
    of matching [r] makes [k] fail. *)
Fixpoint rmatch (fl : flags) (r : regex) (k : cont)
    (prev : option char) (s : str) (g : groups) : option found :=
  match r with
  | Lit l =>
      match strip_prefix l s with
      | Some s' => k (last_seen prev l) s' g
      | None => None
      end
  | Any =>
      match s with
      | c :: s' => if any_ok fl c then k (Some c) s' g else None
      | [] => None
      end
  | Bol => if at_bol fl prev then k prev s g else None
  | Eol => if at_eol fl s then k prev s g else None
  | Star gr => star gr (any_ok fl) k prev s g
  | Plus gr =>
      match s with
      | c :: s' => if any_ok fl c then star gr (any_ok fl) k (Some c) s' g else None
      | [] => None
      end
  | Group n r' =>
      rmatch fl r'
        (fun prev' s' g' =>
           k prev' s' ((n, firstn (List.length s - List.length s') s) :: g'))
        prev s g
  | Seq r1 r2 =>
      rmatch fl r1 (fun prev' s' g' => rmatch fl r2 k prev' s' g') prev s g
  end.

(** The number of groups of a pattern. *)
Fixpoint ngroups (r : regex) : nat :=
  match r with
  | Group n r' => Nat.max n (ngroups r')
  | Seq r1 r2 => Nat.max (ngroups r1) (ngroups r2)
  | _ => 0
  end.

(** A replacement template: literal text and group references [\n]. *)
Inductive titem := TLit (s : str) | TGroup (n : nat).
Definition template := list titem.

Fixpoint expand (t : template) (g : groups) : str :=
  match t with
  | [] => []
  | TLit s :: t' => s ++ expand t' g
  | TGroup n :: t' => group g n ++ expand t' g
  end.

(** The template is compiled before the scan: a reference to a group
    the pattern does not have raises [re.error]. *)
Fixpoint check_template (n : nat) (t : template) : result unit :=
  match t with
  | [] => Ret tt
  | TLit _ :: t' => check_template n t'
  | TGroup m :: t' =>
      if (1 <=? m) && (m <=? n) then check_template n t'
      else Raise (InvalidGroupReference m)
  end.

(** The end of a match attempt.  After an empty match the next attempt
    at the same position has to advance. *)
Definition accept (must_advance : bool) (s : str) : cont :=
  fun prev' s' g' =>
    if must_advance && (List.length s' =? List.length s) then None
    else Some (g', prev', s').

(** The scan of [re.sub]: at each position, replace the match that
    starts there, or copy one character and move on. *)
Fixpoint sub_loop (fuel : nat) (fl : flags) (r : regex) (t : template)
    (must_advance : bool) (prev : option char) (s : str) : result str :=
  match fuel with
  | O => OutOfFuel
  | S fuel' =>
      match rmatch fl r (accept must_advance s) prev s [] with
      | Some (g, prev', rest) =>
          let* out := sub_loop fuel' fl r t
                   (List.length rest =? List.length s) prev' rest in
          Ret (expand t g ++ out)
      | None =>
          match s with
          | [] => Ret []
          | c :: s' =>
              let* out := sub_loop fuel' fl r t false (Some c) s' in
              Ret (c :: out)
          end
      end
  end.

(** [re.sub(pattern, repl, string, flags=fl)] *)
Definition sub (fl : flags) (r : regex) (t : template) (s : str) : result str :=
  let* _ := check_template (ngroups r) t in
  sub_loop (2 * List.length s + 2) fl r t false None s.

(** Whatever a pattern hands to its continuation is a suffix of what it
    was given, so it is not longer. *)
Definition reaches (k : cont) (s : str) (res : found) : Prop :=
  exists prev' s' g', List.length s' <= List.length s /\ k prev' s' g' = Some res.

End Re.

(** ** The converter *)

(** [r'^# (.+)$'] and the like: a marker at the start of a line, then
    the rest of the line, which is not empty. *)
Definition line_pattern (marker : str) : Re.regex :=
  Re.Seq Re.Bol
    (Re.Seq (Re.Lit marker)
       (Re.Seq (Re.Group 1 (Re.Plus Re.Greedy)) Re.Eol)).

(** [r'\*\*(.+?)\*\*'] and [r'\*(.+?)\*'] *)
Definition span_pattern (delim : str) : Re.regex :=
  Re.Seq (Re.Lit delim)
    (Re.Seq (Re.Group 1 (Re.Plus Re.Lazy)) (Re.Lit delim)).

(** [r'(<li>.*</li>)'] *)
Definition list_pattern : Re.regex :=
  Re.Group 1
    (Re.Seq (Re.Lit (lit "<li>")) (Re.Seq (Re.Star Re.Greedy) (Re.Lit (lit "</li>")))).

(** [r'<tag>\1</tag>'] *)
Definition tag_template (tag : str) : Re.template :=
  [Re.TLit (lit "<" ++ tag ++ lit ">"); Re.TGroup 1;
   Re.TLit (lit "</" ++ tag ++ lit ">")].

Definition shell_head (title : str) : str :=
  lit "<!DOCTYPE html>" ++ [nl] ++
  lit "<html lang=" ++ quoted (lit "en") ++ lit ">" ++ [nl] ++
  lit "<head>" ++ [nl] ++
  lit "    <meta charset=" ++ quoted (lit "UTF-8") ++ lit ">" ++ [nl] ++
  lit "    <meta name=" ++ quoted (lit "viewport") ++ lit " content=" ++
    quoted (lit "width=device-width, initial-scale=1.0") ++ lit ">" ++ [nl] ++
  lit "    <title>" ++ title ++ lit " - Tarot Deck App</title>" ++ [nl] ++
  lit "    <link rel=" ++ quoted (lit "stylesheet") ++ lit " href=" ++
    quoted (lit "style.css") ++ lit ">" ++ [nl] ++
  lit "</head>" ++ [nl] ++
  lit "<body>" ++ [nl] ++
  lit "    <div class=" ++ quoted (lit "container") ++ lit ">" ++ [nl] ++
  lit "        <a href=" ++ quoted (lit "index.html") ++ lit " class=" ++
    quoted (lit "back-link") ++ lit ">" ++ [8592%N] (* left arrow *) ++
    lit " Back to Legal Documents</a>" ++ [nl].

Definition footer_text : str :=
  lit "Tarot Deck App " ++ [169%N] (* copyright sign *) ++ lit " 2026".

Definition shell_foot : str :=
  [nl] ++
  lit "        <footer>" ++ [nl] ++
  lit "            <p>" ++ footer_text ++ lit "</p>" ++ [nl] ++
  lit "        </footer>" ++ [nl] ++
  lit "    </div>" ++ [nl] ++
  lit "</body>" ++ [nl] ++
  lit "</html>" ++ [nl].

(** ['<p>' + ' '.join(current_para) + '</p>'] *)
Definition paragraph (current_para : list str) : str :=
  lit "<p>" ++ join (lit " ") current_para ++ lit "</p>".

(** The buffer is flushed when it is not empty. *)
Definition flush (paragraphs : list str) (current_para : list str) : list str :=
  match current_para with
  | [] => paragraphs
  | _ => paragraphs ++ [paragraph current_para]
  end.

(** One turn of the loop over the lines; the state is
    [(paragraphs, current_para)]. *)
Definition para_step (st : list str * list str) (line : str)
  : list str * list str :=
  let '(paragraphs, current_para) := st in
  if str_eqb (strip line) [] then
    (flush paragraphs current_para, [])
  else if negb (startswith (strip line) (lit "<")) then
    (paragraphs, current_para ++ [strip line])
  else
    (flush paragraphs current_para ++ [line], []).

Definition assemble_paragraphs (lines : list str) : list str :=
  let '(paragraphs, current_para) := fold_left para_step lines ([], []) in
  flush paragraphs current_para.

(** The six substitutions, in the order of the source. *)
Definition convert_inline (md_content : str) : result str :=
  let* md_content := Re.sub Re.multiline (line_pattern (lit "# ")) (tag_template (lit "h1")) md_content in
  let* md_content := Re.sub Re.multiline (line_pattern (lit "## ")) (tag_template (lit "h2")) md_content in
  let* md_content := Re.sub Re.multiline (line_pattern (lit "### ")) (tag_template (lit "h3")) md_content in
  let* md_content := Re.sub Re.no_flags (span_pattern (lit "**")) (tag_template (lit "strong")) md_content in
  let* md_content := Re.sub Re.no_flags (span_pattern (lit "*")) (tag_template (lit "em")) md_content in
  let* md_content := Re.sub Re.multiline (line_pattern (lit "- ")) (tag_template (lit "li")) md_content in
  Re.sub Re.dotall list_pattern (tag_template (lit "ul")) md_content.

Definition markdown_to_html_simple (md_content title : str) : result str :=
  let html := shell_head title in
  let* md_content := convert_inline md_content in
  let lines := split nl md_content in
  let paragraphs := assemble_paragraphs lines in
  let html := html ++ join [nl] paragraphs in
  let html := html ++ shell_foot in
  Ret html.


(** ** The driver *)

Definition files_to_convert : list (str * str) :=
  [ (lit "PRIVACY_POLICY.md", lit "Privacy Policy");
    (lit "TERMS_OF_SERVICE.md", lit "Terms of Service");
    (lit "LICENSE", lit "License");
    (lit "COPYRIGHT", lit "Copyright") ].

Definition html_filename_of (filename : str) : str :=
  replace
    (replace (replace filename (lit ".md") (lit ".html"))
       (lit "LICENSE") (lit "LICENSE.html"))
    (lit "COPYRIGHT") (lit "COPYRIGHT.html").

(** What a path below the project root holds. *)
Inductive node :=
| Text (content : str)  (* a file that reads as UTF-8 text *)
| NotText               (* a file whose bytes are not UTF-8 *)
| NoAccess.             (* a directory, or a file that may not be read *)

(** What the run can see and change: what the paths below the project
    root hold (by path relative to the root), the paths that may not be
    opened for writing (a directory is there, or permission is
    missing), the directories, and the lines printed so far. *)
Record world := World {
  files : gmap str node;
  unwritable : gset str;
  dirs : gset str;
  stdout : list str
}.

(** [root_dir / 'docs'] and [docs_dir / html_filename] *)
Definition docs_dir : str := lit "docs".
Definition in_docs (name : str) : str := docs_dir ++ lit "/" ++ name.

(** Modelled from the spec: the [Path] class is imported from a module
    that is not among the sources.  [mkdir(exist_ok=True)] is the
    directory creation of the spec, idempotent and with no error when
    the directory is already present. *)
Definition mkdir_exist_ok (d : str) (w : world) : world :=
  {| files := files w; unwritable := unwritable w;
     dirs := {[ d ]} ∪ dirs w; stdout := stdout w |}.

(** Modelled from the spec: [exists()] of the same [Path] class tells
    whether the source file is present. *)
Definition path_exists (p : str) (w : world) : bool :=
  bool_decide (is_Some (files w !! p)).

(** [open(p, 'r', encoding='utf-8')] and [f.read()]: there is no
    handler around them, so what they raise ends the run. *)
Definition read_file (p : str) (w : world) : result str :=
  match files w !! p with
  | Some (Text content) => Ret content
  | Some NotText => Raise UnicodeDecodeError
  | Some NoAccess => Raise OSError
  | None => Raise OSError
  end.

(** The world with [content] in the file at [p]. *)
Definition written (p content : str) (w : world) : world :=
  {| files := <[ p := Text content ]> (files w); unwritable := unwritable w;
     dirs := dirs w; stdout := stdout w |}.

(** [open(p, 'w', encoding='utf-8')] and [f.write(content)], with no
    handler around them either. *)
Definition write_file (p content : str) (w : world) : result world :=
  if bool_decide (p ∈ unwritable w) then Raise OSError
  else Ret (written p content w).

Definition print (line : str) (w : world) : world :=
  {| files := files w; unwritable := unwritable w;
     dirs := dirs w; stdout := stdout w ++ [line] |}.

Definition converted_line (filename html_filename : str) : str :=
  lit "Converted " ++ filename ++ lit " to " ++ html_filename.

Definition warning_line (filename : str) : str :=
  lit "Warning: " ++ filename ++ lit " not found".

(** The body of the loop of [main] for one source pair. *)
Definition convert_file (w : world) (entry : str * str) : result world :=
  let '(filename, title) := entry in
  let md_path := filename in
  let html_filename := html_filename_of filename in
  let html_path := in_docs html_filename in
  if path_exists md_path w then
    let* md_content := read_file md_path w in
    let* html_content := markdown_to_html_simple md_content title in
    let* w := write_file html_path html_content w in
    Ret (print (converted_line filename html_filename) w)
  else
    Ret (print (warning_line filename) w).

Fixpoint for_each (entries : list (str * str)) (w : world) : result world :=
  match entries with
  | [] => Ret w
  | entry :: entries' =>
      let* w := convert_file w entry in
      for_each entries' w
  end.

Definition main (w : world) : result world :=
  let w := mkdir_exist_ok docs_dir w in
  for_each files_to_convert w.

(** The line printed for a source pair. *)
Definition report (w : world) (entry : str * str) : str :=
  if path_exists (fst entry) w
  then converted_line (fst entry) (html_filename_of (fst entry))
  else warning_line (fst entry).

(** The loop body returns for a pair whose source is absent, or reads
    as text while its output path may be written. *)
Definition can_convert (w : world) (entry : str * str) : bool :=
  match files w !! fst entry with
  | None => true
  | Some (Text _) =>
      negb (bool_decide (in_docs (html_filename_of (fst entry)) ∈ unwritable w))
  | Some _ => false
  end.

Definition convertible (w : world) : bool :=
  forallb (can_convert w) files_to_convert.

(** ** Vocabulary of the properties *)

(** [p] occurs in [s]. *)
Definition substring (p s : str) : Prop :=
  exists pre post, s = pre ++ p ++ post.

(** [p in s], decided. *)
Fixpoint contains (s p : str) : bool :=
  startswith s p ||
  match s with
  | [] => false
  | _ :: s' => contains s' p
  end.

(** [s.find(p)], with [None] for -1. *)
Fixpoint find (s p : str) : option nat :=
  if startswith s p then Some 0
  else match s with
       | [] => None
       | _ :: s' => option_map S (find s' p)
       end.

(** The positions at which [p] occurs in [s], counted from [i]. *)
Fixpoint occurrences_from (i : nat) (s p : str) : list nat :=
  (if startswith s p then [i] else []) ++
  match s with
  | [] => []
  | _ :: s' => occurrences_from (S i) s' p
  end.

Definition occurrences (s p : str) : list nat := occurrences_from 0 s p.

(** [frag] lies between an opening and a closing [tag] in [out]. *)
Definition enclosed_in (tag frag out : str) : Prop :=
  exists pre a b post,
    out = pre ++ (lit "<" ++ tag ++ lit ">") ++ a ++ frag ++ b ++
          (lit "</" ++ tag ++ lit ">") ++ post.

(** Some [<li>] of [s] is followed by a [</li>]. *)
Fixpoint has_list_span (s : str) : bool :=
  match strip_prefix (lit "<li>") s with
  | Some s1 => contains s1 (lit "</li>")
  | None => false
  end ||
  match s with
  | [] => false
  | _ :: s' => has_list_span s'
  end.

(** What a line substitution does to one line: a line that starts with
    the marker and goes on after it is wrapped in the tag. *)
Definition convert_line (marker tag line : str) : str :=
  match strip_prefix marker line with
  | Some (c :: rest) => lit "<" ++ tag ++ lit ">" ++ c :: rest ++ lit "</" ++ tag ++ lit ">"
  | _ => line
  end.

Definition blank (line : str) : bool := str_eqb (strip line) [].

(** The maximal runs of consecutive non-blank lines, from the last line
    backwards: a non-blank line joins the run of the line after it. *)
Fixpoint runs (lines : list str) : list (list str) :=
  match lines with
  | [] => []
  | l :: rest =>
      if blank l then runs rest
      else match rest with
           | next :: _ =>
               if blank next then [l] :: runs rest
               else match runs rest with
                    | r :: rs => (l :: r) :: rs
                    | [] => [[l]]
                    end
           | [] => [[l]]
           end
  end.

(** Text without markdown syntax: no line starts with a header or list
    marker, there is no asterisk, and no line has [<] as its first
    non-blank character. *)
Definition plain_line (line : str) : bool :=
  negb (startswith line (lit "# ")) &&
  negb (startswith line (lit "## ")) &&
  negb (startswith line (lit "### ")) &&
  negb (startswith line (lit "- ")) &&
  negb (startswith (strip line) (lit "<")).

Definition no_markdown (content : str) : bool :=
  forallb plain_line (split nl content) &&
  forallb (fun c => negb (char_eqb c star_sign)) content.

(** [s.endswith(p)] *)
Definition endswith (s p : str) : bool := startswith (rev s) (rev p).

(** The output name as the specification words it: the [.md] suffix
    replaced by [.html], or [.html] appended when there is none. *)
Definition suffix_html_filename (filename : str) : str :=
  if endswith filename (lit ".md")
  then firstn (List.length filename - 3) filename ++ lit ".html"
  else filename ++ lit ".html".

Definition one_line (l : str) : bool :=
  forallb (fun c => negb (char_eqb c nl)) l.

(** The text up to the first line break, and the text from it on. *)
Fixpoint first_line (s : str) : str :=
  match s with
  | [] => []
  | c :: s' => if char_eqb c nl then [] else c :: first_line s'
  end.

Fixpoint after_first_line (s : str) : str :=
  match s with
  | [] => []
  | c :: s' => if char_eqb c nl then s else after_first_line s'
  end.

(** The lines after the first one. *)
Definition next_lines (s : str) : option str :=
  match after_first_line s with
  | [] => None
  | _ :: s2 => Some s2
  end.

(** The text with each of its lines converted. *)
Definition convert_lines (marker tag s : str) : str :=
  join [nl] (map (convert_line marker tag) (split nl s)).

Definition convert_next_lines (marker tag s : str) : str :=
  match next_lines s with
  | Some s2 => nl :: convert_lines marker tag s2
  | None => []
  end.

(** The four line substitutions of the converter: marker and tag. *)
Definition line_substitutions : list (str * str) :=
  [ (lit "# ", lit "h1"); (lit "## ", lit "h2"); (lit "### ", lit "h3");
    (lit "- ", lit "li") ].

Definition li_open : str := lit "<li>".
Definition li_close : str := lit "</li>".

(** The buffer put in front of the runs of the lines still to come: it
    joins their first run when the next line is not blank. *)
Definition prepend (cur : list str) (joins : bool) (rs : list (list str))
  : list (list str) :=
  match cur with
  | [] => rs
  | _ =>
      if joins then
        match rs with
        | r :: rs' => (cur ++ r) :: rs'
        | [] => [cur]
        end
      else cur :: rs
  end.

Definition head_nonblank (lines : list str) : bool :=
  match lines with
  | l :: _ => negb (blank l)
  | [] => false
  end.

(** The title is the only part of the shell that varies. *)
Definition head_before_title : str := firstn 153 (shell_head []).
Definition head_after_title : str := skipn 153 (shell_head []).

(** What the three header substitutions, one after the other, do to a
    line: the first marker the line starts with, and goes on after,
    decides the tag. *)
Definition heading (line : str) : str :=
  match strip_prefix (lit "# ") line with
  | Some (c :: rest) => lit "<h1>" ++ c :: rest ++ lit "</h1>"
  | _ =>
      match strip_prefix (lit "## ") line with
      | Some (c :: rest) => lit "<h2>" ++ c :: rest ++ lit "</h2>"
      | _ =>
          match strip_prefix (lit "### ") line with
          | Some (c :: rest) => lit "<h3>" ++ c :: rest ++ lit "</h3>"
          | _ => line
          end
      end
  end.

Definition no_star (s : str) : bool :=
  forallb (fun c => negb (char_eqb c star_sign)) s.

(** Text for the inside of a tag: not empty, on one line, no asterisk. *)
Definition inline_text (x : str) : bool :=
  one_line x && negb (str_eqb x []) && no_star x.

Definition item_line (x : str) : str := lit "- " ++ x.
Definition item_tag (x : str) : str := lit "<li>" ++ x ++ lit "</li>".

(** A line that paragraph assembly emits as it is. *)
Definition html_line (line : str) : bool := startswith (strip line) (lit "<").

(** Every line break of the text is followed by [<]. *)
Fixpoint breaks_before_lt (s : str) : bool :=
  match s with
  | [] => true
  | c :: s' =>
      (if char_eqb c nl then startswith s' (lit "<") else true)
      && breaks_before_lt s'
  end.

(** What the paragraph buffer holds: lines of the text, stripped, and
    not empty. *)
Definition buffered_piece (lines : list str) (t : str) : Prop :=
  t <> [] /\ exists l, In l lines /\ t = strip l.

(** What paragraph assembly emits: a line of the text that starts with
    [<] after stripping, or a paragraph of buffered pieces, at least one. *)
Definition emitted_element (lines : list str) (p : str) : Prop :=
  (In p lines /\ html_line p = true) \/
  (exists cur, cur <> [] /\ Forall (buffered_piece lines) cur /\ p = paragraph cur).

(** A match found in a text, seen from the same text with [tail]
    after it. *)
Definition with_tail (tail : str) (res : option Re.found) : option Re.found :=
  match res with
  | Some (g, p, rest) => Some (g, p, rest ++ tail)
  | None => None
  end.

(** ** Sample documents *)

Definition bold_and_italic : str := lit "**bold** and *italic*".

Definition two_items : str := lit "- a" ++ [nl] ++ lit "- b".

(** Two list blocks with a paragraph between them. *)
Definition two_list_blocks : str :=
  join [nl] [lit "Intro"; lit "- a"; lit ""; lit "Between"; lit ""; lit "- b"; lit "End"].

Definition two_plain_runs : str :=
  join [nl] [lit "  Terms of"; lit "use  "; lit " "; lit ""; lit "Last line <li>"].

(** The project with the licence as its only source. *)
Definition license_only : world :=
  {| files := {[ lit "LICENSE" :=
                   Text (lit "# Grant" ++ [nl] ++ lit "You may use this software.") ]};
     unwritable := ∅;
     dirs := ∅;
     stdout := [] |}.

(** The page of that licence. *)
Definition license_page : str :=
  shell_head (lit "License")
  ++ (lit "<h1>Grant</h1>" ++ [nl] ++ lit "<p>You may use this software.</p>")
  ++ shell_foot.

(** That project after a run. *)
Definition license_only_done : world :=
  {| files := <[ in_docs (lit "LICENSE.html") := Text license_page ]>
                (files license_only);
     unwritable := ∅;
     dirs := {[ docs_dir ]} ∪ ∅;
     stdout := [lit "Warning: PRIVACY_POLICY.md not found";
                lit "Warning: TERMS_OF_SERVICE.md not found";
                lit "Converted LICENSE to LICENSE.html";
                lit "Warning: COPYRIGHT not found"] |}.

(** A project whose licence is a file that is not UTF-8. *)
Definition license_not_text : world :=
  {| files := {[ lit "LICENSE" := NotText ]};
     unwritable := ∅;
     dirs := ∅;
     stdout := [] |}.

(** ** The matcher only moves forward *)

Lemma char_eqb_eq (a b : char) : char_eqb a b = true <-> a = b.
Proof. apply N.eqb_eq. Qed.

Lemma char_eqb_refl (a : char) : char_eqb a a = true.
Proof. apply N.eqb_refl. Qed.

Lemma char_eqb_neq (a b : char) : char_eqb a b = false <-> a <> b.
Proof. apply N.eqb_neq. Qed.

Lemma strip_prefix_app (p s : str) : strip_prefix p (p ++ s) = Some s.
Proof.
  induction p as [|x p IH]; simpl; [reflexivity|].
  now rewrite char_eqb_refl.
Qed.

Lemma strip_prefix_Some (p s r : str) :
  strip_prefix p s = Some r -> s = p ++ r.
Proof.
  revert s; induction p as [|x p IH]; intros s H; simpl in *.
  - now inversion H.
  - destruct s as [|y s]; [discriminate|].
    destruct (char_eqb x y) eqn:E; [|discriminate].
    apply char_eqb_eq in E; subst y. f_equal. now apply IH.
Qed.

Lemma strip_prefix_length (p s r : str) :
  strip_prefix p s = Some r -> List.length s = List.length p + List.length r.
Proof.
  intros H. apply strip_prefix_Some in H. subst s. apply length_app.
Qed.

Module ReFacts.
Import Re.

Lemma star_greedy_reaches ok k prev s g res :
  star_greedy ok k prev s g = Some res -> reaches k s res.
Proof.
  revert prev; induction s as [|c s IH]; intros prev H; simpl in H.
  - exists prev, [], g. split; [lia|assumption].
  - destruct (ok c).
    + destruct (star_greedy ok k (Some c) s g) eqn:E.
      * inversion H; subst f.
        destruct (IH _ E) as (p' & s' & g' & Hl & Hk).
        exists p', s', g'. split; [simpl; lia|assumption].
      * exists prev, (c :: s), g. split; [lia|assumption].
    + exists prev, (c :: s), g. split; [lia|assumption].
Qed.

Lemma star_lazy_reaches ok k prev s g res :
  star_lazy ok k prev s g = Some res -> reaches k s res.
Proof.
  revert prev; induction s as [|c s IH]; intros prev H; simpl in H.
  - destruct (k prev [] g) eqn:E; [|discriminate].
    exists prev, [], g. split; [lia|congruence].
  - destruct (k prev (c :: s) g) eqn:E.
    + exists prev, (c :: s), g. split; [lia|congruence].
    + destruct (ok c); [|discriminate].
      destruct (IH _ H) as (p' & s' & g' & Hl & Hk).
      exists p', s', g'. split; [simpl; lia|assumption].
Qed.

Lemma star_reaches gr ok k prev s g res :
  star gr ok k prev s g = Some res -> reaches k s res.
Proof.
  destruct gr; [apply star_greedy_reaches|apply star_lazy_reaches].
Qed.

Lemma rmatch_reaches fl r : forall k prev s g res,
  rmatch fl r k prev s g = Some res -> reaches k s res.
Proof.
  induction r as [l| | | |gr|gr|n r IH|r1 IH1 r2 IH2]; intros k prev s g res H;
    simpl in H.
  - destruct (strip_prefix l s) as [s'|] eqn:E; [|discriminate].
    apply strip_prefix_length in E.
    exists (last_seen prev l), s', g. split; [lia|assumption].
  - destruct s as [|c s]; [discriminate|].
    destruct (any_ok fl c); [|discriminate].
    exists (Some c), s, g. split; [simpl; lia|assumption].
  - destruct (at_bol fl prev); [|discriminate].
    exists prev, s, g. split; [lia|assumption].
  - destruct (at_eol fl s); [|discriminate].
    exists prev, s, g. split; [lia|assumption].
  - eapply star_reaches; eassumption.
  - destruct s as [|c s]; [discriminate|].
    destruct (any_ok fl c); [|discriminate].
    destruct (star_reaches _ _ _ _ _ _ _ H) as (p' & s' & g' & Hl & Hk).
    exists p', s', g'. split; [simpl; lia|assumption].
  - destruct (IH _ _ _ _ _ H) as (p' & s' & g' & Hl & Hk).
    exists p', s', ((n, firstn (List.length s - List.length s') s) :: g').
    split; assumption.
  - destruct (IH1 _ _ _ _ _ H) as (p1 & s1 & g1 & Hl1 & Hk1).
    destruct (IH2 _ _ _ _ _ Hk1) as (p2 & s2 & g2 & Hl2 & Hk2).
    exists p2, s2, g2. split; [lia|assumption].
Qed.

(** A match found by the scan ends inside the string, and advances
    when it has to. *)
Lemma accept_shrinks fl r ma prev s g prev' rest :
  rmatch fl r (accept ma s) prev s [] = Some (g, prev', rest) ->
  List.length rest <= List.length s /\
  (ma = true -> List.length rest <> List.length s).
Proof.
  intros H. destruct (rmatch_reaches _ _ _ _ _ _ _ H) as (p' & s' & g' & Hl & Hk).
  unfold accept in Hk.
  destruct (ma && (List.length s' =? List.length s)) eqn:E; [discriminate|].
  inversion Hk; subst. split; [assumption|].
  intros ->. simpl in E. now apply Nat.eqb_neq in E.
Qed.

(** The scan ends: two turns for each position are enough, one for an
    empty match and one to move on. *)
Lemma sub_loop_returns fl r t : forall fuel (ma : bool) prev s,
  2 * List.length s + (if ma then 1 else 2) <= fuel ->
  exists out, sub_loop fuel fl r t ma prev s = Ret out.
Proof.
  induction fuel as [|fuel IH]; intros ma prev s Hf.
  - destruct ma; lia.
  - simpl.
    destruct (rmatch fl r (accept ma s) prev s []) as [[[g prev'] rest]|] eqn:E.
    + apply accept_shrinks in E. destruct E as [Hl Hadv].
      destruct (IH (List.length rest =? List.length s) prev' rest) as [out Hout].
      { destruct (List.length rest =? List.length s) eqn:El.
        - apply Nat.eqb_eq in El. destruct ma; [now exfalso; apply Hadv|lia].
        - apply Nat.eqb_neq in El. destruct ma; lia. }
      rewrite Hout. simpl. eauto.
    + destruct s as [|c s]; [eauto|].
      destruct (IH false (Some c) s) as [out Hout].
      { simpl in Hf. destruct ma; lia. }
      rewrite Hout. simpl. eauto.
Qed.

Lemma sub_returns fl r t s :
  check_template (ngroups r) t = Ret tt ->
  exists out, sub fl r t s = Ret out.
Proof.
  intros Ht. unfold sub. rewrite Ht. simpl.
  apply sub_loop_returns. lia.
Qed.

End ReFacts.

(** ** The converter returns, and its result is the shell around a body *)

Lemma convert_inline_returns (s : str) : exists out, convert_inline s = Ret out.
Proof.
  unfold convert_inline.
  repeat match goal with
  | |- context [bind (Re.sub ?fl ?r ?t ?x) _] =>
      let out := fresh "out" in
      let H := fresh "H" in
      destruct (ReFacts.sub_returns fl r t x eq_refl) as [out H];
      rewrite H; cbn [bind]
  end.
  apply ReFacts.sub_returns. reflexivity.
Qed.

Lemma markdown_to_html_simple_shell (md_content title : str) :
  exists paragraphs,
    markdown_to_html_simple md_content title
    = Ret ((shell_head title ++ join [nl] paragraphs) ++ shell_foot).
Proof.
  unfold markdown_to_html_simple.
  destruct (convert_inline_returns md_content) as [out H].
  rewrite H. cbn [bind]. eauto.
Qed.

(** C5: for every content string, the empty one included, and every
    title string, [markdown_to_html_simple] returns a string: the scans
    of the substitutions end, and no template refers to a group its
    pattern lacks. *)
Theorem markdown_to_html_simple_total (md_content title : str) :
  exists html, markdown_to_html_simple md_content title = Ret html.
Proof.
  destruct (markdown_to_html_simple_shell md_content title) as [ps H].
  eauto.
Qed.

Lemma substring_app_l (p s t : str) : substring p s -> substring p (s ++ t).
Proof.
  intros (pre & post & ->). exists pre, (post ++ t).
  now rewrite <- !app_assoc.
Qed.

Lemma substring_app_r (p s t : str) : substring p t -> substring p (s ++ t).
Proof.
  intros (pre & post & ->). exists (s ++ pre), post.
  now rewrite <- !app_assoc.
Qed.

Lemma substring_here (p t : str) : substring p (p ++ t).
Proof. now exists [], t. Qed.

Lemma startswith_true (s p : str) :
  startswith s p = true -> exists post, s = p ++ post.
Proof.
  unfold startswith. destruct (strip_prefix p s) as [r|] eqn:E; [|discriminate].
  intros _. exists r. now apply strip_prefix_Some.
Qed.

Lemma contains_substring (s p : str) : contains s p = true -> substring p s.
Proof.
  induction s as [|c s IH]; simpl; intros H.
  - rewrite orb_false_r in H. apply startswith_true in H as [post ->].
    now exists [], post.
  - apply orb_true_iff in H as [H|H].
    + apply startswith_true in H as [post ->]. now exists [], post.
    + destruct (IH H) as (pre & post & ->). now exists (c :: pre), post.
Qed.

Lemma shell_head_title (title : str) :
  shell_head title = head_before_title ++ title ++ head_after_title.
Proof. reflexivity. Qed.

(** C6: whatever the content and the title, the output contains the
    footer text, Tarot Deck App, the copyright sign, 2026, and a link
    whose target is index.html. *)
Theorem shell_always_present (md_content title : str) :
  exists html,
    markdown_to_html_simple md_content title = Ret html /\
    substring (lit "Tarot Deck App " ++ [169%N] ++ lit " 2026") html /\
    substring (lit "<a href=" ++ [34%N] ++ lit "index.html" ++ [34%N]) html.
Proof.
  destruct (markdown_to_html_simple_shell md_content title) as [ps H].
  eexists; split; [exact H|]. split.
  - apply substring_app_r. apply contains_substring. reflexivity.
  - apply substring_app_l, substring_app_l.
    rewrite shell_head_title. do 2 apply substring_app_r.
    apply contains_substring. reflexivity.
Qed.

(** ** Two documents of one line or two *)

Lemma occurrences_from_app (i : nat) (x p y : str) :
  In (i + List.length x) (occurrences_from i (x ++ p ++ y) p).
Proof.
  revert i; induction x as [|c x IH]; intros i.
  - simpl app. replace (i + List.length (@nil char)) with i by (simpl; lia).
    destruct p as [|d p]; simpl.
    + destruct y; simpl; auto.
    + unfold startswith. simpl. rewrite char_eqb_refl, strip_prefix_app.
      simpl. auto.
  - simpl. apply in_or_app. right.
    replace (i + S (List.length x)) with (S i + List.length x) by lia.
    apply IH.
Qed.

Lemma occurrences_app (x p y : str) :
  In (List.length x) (occurrences (x ++ p ++ y) p).
Proof. apply (occurrences_from_app 0). Qed.

(** C1, as the code has it: for the content "**bold** and *italic*"
    and the title "T" the body is the one line
    [<strong>bold</strong> and <em>italic</em>]: a strong-emphasis tag
    around exactly [bold], an emphasis tag around exactly [italic], the
    word [and] between them.  The converted line starts with [<], so
    it is emitted as it is, and no paragraph tag is put around it. *)
Theorem bold_and_italic_body :
  markdown_to_html_simple bold_and_italic (lit "T")
  = Ret (shell_head (lit "T")
         ++ lit "<strong>bold</strong> and <em>italic</em>"
         ++ shell_foot).
Proof. vm_compute. reflexivity. Qed.

(** C1 as stated fails: in the output for "**bold** and *italic*" the
    strong-emphasis tag is not inside any paragraph tag. *)
Lemma bold_and_italic_not_in_paragraph :
  ~ (exists html,
       markdown_to_html_simple bold_and_italic (lit "T") = Ret html /\
       enclosed_in (lit "p") (lit "<strong>bold</strong>") html).
Proof.
  intros (html & Hrun & pre & a & b & post & Hhtml).
  assert (Hout : markdown_to_html_simple bold_and_italic (lit "T")
                 = Ret (shell_head (lit "T")
                        ++ lit "<strong>bold</strong> and <em>italic</em>"
                        ++ shell_foot)) by (vm_compute; reflexivity).
  rewrite Hout in Hrun. inversion Hrun as [Heq]. clear Hrun Hout.
  assert (Hp : In (List.length pre) (occurrences html (lit "<p>"))).
  { rewrite Hhtml. apply occurrences_app. }
  assert (Hs : In (List.length (pre ++ (lit "<" ++ lit "p" ++ lit ">") ++ a))
                 (occurrences html (lit "<strong>bold</strong>"))).
  { rewrite Hhtml.
    replace (pre ++ (lit "<" ++ lit "p" ++ lit ">") ++ a
             ++ lit "<strong>bold</strong>" ++ b
             ++ (lit "</" ++ lit "p" ++ lit ">") ++ post)
      with ((pre ++ (lit "<" ++ lit "p" ++ lit ">") ++ a)
            ++ lit "<strong>bold</strong>"
            ++ (b ++ (lit "</" ++ lit "p" ++ lit ">") ++ post))
      by (now rewrite <- !app_assoc).
    apply occurrences_app. }
  rewrite !length_app in Hs.
  remember (List.length pre) as m. remember (List.length a) as n.
  rewrite <- Heq in Hp, Hs. clear - Hp Hs.
  vm_compute in Hp. destruct Hp as [Hp|[]]. subst m.
  vm_compute in Hs. destruct Hs as [Hs|[]].
  repeat (apply Nat.succ_inj in Hs). discriminate Hs.
Qed.

(** C4: for the content "- a\n- b" and the title "T" the body has two
    list-item tags, around [a] and around [b], both between the one
    opening and the one closing unordered-list tag of the output. *)
Theorem two_items_one_list :
  markdown_to_html_simple two_items (lit "T")
  = Ret (shell_head (lit "T")
         ++ (lit "<ul>" ++ lit "<li>a</li>" ++ [nl] ++ lit "<li>b</li>" ++ lit "</ul>")
         ++ shell_foot)
  /\ (forall html, markdown_to_html_simple two_items (lit "T") = Ret html ->
       List.length (occurrences html (lit "<ul>")) = 1 /\
       List.length (occurrences html (lit "</ul>")) = 1 /\
       List.length (occurrences html (lit "<li>")) = 2).
Proof.
  split; [vm_compute; reflexivity|].
  intros html H. vm_compute in H. inversion H. vm_compute. auto.
Qed.

(** ** Output names *)

(** C8: for the four source pairs the chain of replacements gives the
    name with [.md] replaced by [.html], or with [.html] appended when
    there is no [.md] suffix: PRIVACY_POLICY.html, TERMS_OF_SERVICE.html,
    LICENSE.html and COPYRIGHT.html. *)
Theorem html_filenames :
  map (fun entry => html_filename_of (fst entry)) files_to_convert
  = [lit "PRIVACY_POLICY.html"; lit "TERMS_OF_SERVICE.html";
     lit "LICENSE.html"; lit "COPYRIGHT.html"]
  /\ Forall (fun entry => html_filename_of (fst entry)
                          = suffix_html_filename (fst entry))
       files_to_convert.
Proof.
  split; [vm_compute; reflexivity|].
  repeat constructor.
Qed.

(** ** Paragraph assembly *)

Lemma startswith_nonempty (s p : str) :
  p <> [] -> startswith s p = true -> str_eqb s [] = false.
Proof.
  intros Hp H. destruct s as [|c s]; [|reflexivity].
  destruct p; [congruence|discriminate].
Qed.

Lemma para_step_paragraphs (paragraphs current_para : list str) (line : str) :
  para_step (paragraphs, current_para) line
  = (paragraphs ++ fst (para_step ([], current_para) line),
     snd (para_step ([], current_para) line)).
Proof.
  unfold para_step, flush.
  destruct (str_eqb (strip line) []);
    [|destruct (negb (startswith (strip line) (lit "<")))];
    destruct current_para; simpl; rewrite ?app_nil_r, <- ?app_assoc; reflexivity.
Qed.

(** The paragraphs emitted so far are only ever appended to. *)
Lemma fold_para_step_paragraphs (lines : list str) :
  forall paragraphs current_para,
    fold_left para_step lines (paragraphs, current_para)
    = (paragraphs ++ fst (fold_left para_step lines ([], current_para)),
       snd (fold_left para_step lines ([], current_para))).
Proof.
  induction lines as [|l lines IH]; intros ps cur; cbn [fold_left].
  - simpl. now rewrite app_nil_r.
  - rewrite para_step_paragraphs.
    destruct (para_step ([], cur) l) as [qs cur'] eqn:E. simpl.
    rewrite IH. rewrite (IH qs cur'). simpl.
    now rewrite app_assoc.
Qed.

Lemma flush_app (ps qs : list str) (cur : list str) :
  flush (ps ++ qs) cur = ps ++ flush qs cur.
Proof. destruct cur; simpl; [reflexivity|now rewrite app_assoc]. Qed.

Lemma assemble_fold (lines : list str) (paragraphs current_para : list str) :
  (let '(ps, cur) := fold_left para_step lines (paragraphs, current_para) in
   flush ps cur)
  = paragraphs
    ++ (let '(ps, cur) := fold_left para_step lines ([], current_para) in
        flush ps cur).
Proof.
  rewrite fold_para_step_paragraphs.
  destruct (fold_left para_step lines ([], current_para)) as [ps cur]. simpl.
  apply flush_app.
Qed.

(** C9: a line whose first non-whitespace character is [<] flushes
    the buffered paragraph and is then emitted as it is, unstripped
    and without a paragraph tag: that is what one turn of the loop
    does, and so in the assembled body the line stands between the
    paragraphs of the lines before it and those of the lines after it. *)
Theorem html_line_verbatim (line : str) :
  startswith (strip line) (lit "<") = true ->
  (forall paragraphs current_para,
     para_step (paragraphs, current_para) line
     = (flush paragraphs current_para ++ [line], [])) /\
  (forall before after,
     assemble_paragraphs (before ++ line :: after)
     = assemble_paragraphs before ++ line :: assemble_paragraphs after).
Proof.
  intros H.
  assert (Hstep : forall ps cur,
             para_step (ps, cur) line = (flush ps cur ++ [line], [])).
  { intros ps cur. unfold para_step.
    rewrite (startswith_nonempty _ (lit "<")) by (assumption || discriminate).
    now rewrite H. }
  split; [exact Hstep|].
  intros before after. unfold assemble_paragraphs.
  rewrite fold_left_app. cbn [fold_left].
  destruct (fold_left para_step before ([], [])) as [ps cur].
  rewrite Hstep.
  rewrite (assemble_fold after (flush ps cur ++ [line]) []).
  now rewrite <- app_assoc.
Qed.

Lemma html_line_verbatim_witness :
  startswith (strip (lit "  <h2>Use</h2> ")) (lit "<") = true /\
  para_step ([lit "<h1>Terms</h1>"], [lit "Read"; lit "this."])
            (lit "  <h2>Use</h2> ")
  = ([lit "<h1>Terms</h1>"; lit "<p>Read this.</p>"; lit "  <h2>Use</h2> "], []).
Proof.
  split; [reflexivity|].
  exact (proj1 (html_line_verbatim (lit "  <h2>Use</h2> ") eq_refl)
           [lit "<h1>Terms</h1>"] [lit "Read"; lit "this."]).
Defined.

(** ** The driver *)

Lemma convert_file_absent (w : world) (entry : str * str) :
  files w !! fst entry = None ->
  convert_file w entry = Ret (print (warning_line (fst entry)) w).
Proof.
  destruct entry as [filename title]. simpl fst. intros E.
  unfold convert_file, path_exists. rewrite E.
  rewrite bool_decide_eq_false_2 by (intros [x Hx]; discriminate).
  reflexivity.
Qed.

Lemma convert_file_text (w : world) (entry : str * str) (content : str) :
  files w !! fst entry = Some (Text content) ->
  in_docs (html_filename_of (fst entry)) ∉ unwritable w ->
  exists html,
    markdown_to_html_simple content (snd entry) = Ret html /\
    convert_file w entry
    = Ret (print (converted_line (fst entry) (html_filename_of (fst entry)))
             (written (in_docs (html_filename_of (fst entry))) html w)).
Proof.
  destruct entry as [filename title]. simpl fst. simpl snd. intros E Hw.
  unfold convert_file, path_exists, read_file. rewrite E.
  rewrite bool_decide_eq_true_2 by eauto. cbn [bind].
  destruct (markdown_to_html_simple_shell content title) as [ps H].
  rewrite H. cbn [bind]. unfold write_file.
  rewrite bool_decide_eq_false_2 by exact Hw. cbn [bind]. eauto.
Qed.

(** The loop body returns in no other case. *)
Lemma convert_file_returns_inv (w w1 : world) (entry : str * str) :
  convert_file w entry = Ret w1 -> can_convert w entry = true.
Proof.
  destruct entry as [filename title]. unfold can_convert. simpl fst.
  unfold convert_file, path_exists, read_file.
  destruct (files w !! filename) as [[content| |]|] eqn:E.
  - rewrite bool_decide_eq_true_2 by eauto. cbn [bind].
    destruct (markdown_to_html_simple_shell content title) as [ps H].
    rewrite H. cbn [bind]. unfold write_file.
    destruct (bool_decide (in_docs (html_filename_of filename) ∈ unwritable w));
      cbn [bind]; [discriminate|reflexivity].
  - rewrite bool_decide_eq_true_2 by eauto. cbn [bind]. discriminate.
  - rewrite bool_decide_eq_true_2 by eauto. cbn [bind]. discriminate.
  - reflexivity.
Qed.

Lemma convert_file_spec (w : world) (entry : str * str) :
  can_convert w entry = true ->
  exists w',
    convert_file w entry = Ret w' /\
    dirs w' = dirs w /\
    unwritable w' = unwritable w /\
    stdout w' = stdout w ++ [report w entry] /\
    (files w !! fst entry = None /\ files w' = files w \/
     exists content html,
       files w !! fst entry = Some (Text content) /\
       markdown_to_html_simple content (snd entry) = Ret html /\
       files w' = <[ in_docs (html_filename_of (fst entry)) := Text html ]> (files w)).
Proof.
  unfold can_convert, report, path_exists. intros Hcan.
  destruct (files w !! fst entry) as [[content| |]|] eqn:E; try discriminate.
  - apply negb_true_iff, bool_decide_eq_false in Hcan.
    destruct (convert_file_text w entry content E Hcan) as (html & Hhtml & Hrun).
    eexists. split; [exact Hrun|].
    rewrite bool_decide_eq_true_2 by eauto. simpl.
    repeat split. right. eauto.
  - eexists. split; [now apply convert_file_absent|].
    rewrite bool_decide_eq_false_2 by (intros [x Hx]; discriminate). simpl.
    repeat split. now left.
Qed.

Lemma path_exists_files (w w' : world) (p : str) :
  files w' !! p = files w !! p -> path_exists p w' = path_exists p w.
Proof. unfold path_exists. now intros ->. Qed.

Lemma can_convert_files (w w' : world) (entry : str * str) :
  files w' !! fst entry = files w !! fst entry ->
  unwritable w' = unwritable w ->
  can_convert w' entry = can_convert w entry.
Proof. unfold can_convert. now intros -> ->. Qed.

(** The loop over source pairs none of which lies where the outputs go. *)
Lemma for_each_spec (entries : list (str * str)) : forall w,
  (forall e e', In e entries -> In e' entries ->
     fst e <> in_docs (html_filename_of (fst e'))) ->
  forallb (can_convert w) entries = true ->
  exists w',
    for_each entries w = Ret w' /\
    dirs w' = dirs w /\
    unwritable w' = unwritable w /\
    stdout w' = stdout w ++ map (report w) entries /\
    (forall k,
       (forall e, In e entries -> path_exists (fst e) w = true ->
          k <> in_docs (html_filename_of (fst e))) ->
       files w' !! k = files w !! k).
Proof.
  induction entries as [|e entries IH]; intros w Hsep Hcan.
  - exists w. simpl. rewrite app_nil_r. auto.
  - simpl in Hcan. apply andb_true_iff in Hcan as [Hcan0 Hcan].
    destruct (convert_file_spec w e Hcan0) as (w1 & Hrun & Hd1 & Hu1 & Ho1 & Hf1).
    assert (Hsame : forall e', In e' entries ->
               files w1 !! fst e' = files w !! fst e').
    { intros e' He'.
      destruct Hf1 as [[_ ->]|(c & html & _ & _ & ->)]; [reflexivity|].
      apply lookup_insert_ne. intros Heq.
      apply (Hsep e' e); simpl; auto. }
    destruct (IH w1) as (w' & Hrun' & Hd' & Hu' & Ho' & Hf').
    { intros a b Ha Hb. apply Hsep; simpl; auto. }
    { apply forallb_forall. intros e' He'.
      rewrite (can_convert_files w w1 e' (Hsame e' He') Hu1).
      revert e' He'. now apply forallb_forall. }
    exists w'. cbn [for_each]. rewrite Hrun. cbn [bind].
    split; [exact Hrun'|]. split; [congruence|]. split; [congruence|]. split.
    + rewrite Ho', Ho1, <- app_assoc. simpl. do 2 f_equal.
      apply map_ext_in. intros e' He'. unfold report.
      now rewrite (path_exists_files w w1 (fst e') (Hsame e' He')).
    + intros k Hk. rewrite Hf'.
      * destruct Hf1 as [[_ ->]|(c & html & Hc & _ & ->)]; [reflexivity|].
        apply lookup_insert_ne. intros Heq. symmetry in Heq.
        revert Heq. apply Hk; [simpl; auto|].
        unfold path_exists. rewrite Hc. apply bool_decide_eq_true_2. eauto.
      * intros e' He' Hex'. apply Hk; [simpl; auto|].
        now rewrite <- (path_exists_files w w1 (fst e') (Hsame e' He')).
Qed.

Lemma sources_apart : forall e e',
  In e files_to_convert -> In e' files_to_convert ->
  fst e <> in_docs (html_filename_of (fst e')).
Proof.
  intros e e' He He' Heq. simpl in He, He'.
  repeat (destruct He as [<-|He]; [|]); try contradiction;
    repeat (destruct He' as [<-|He']; [|]); try contradiction;
    vm_compute in Heq; discriminate Heq.
Qed.

Lemma outputs_apart : forall e e',
  In e files_to_convert -> In e' files_to_convert ->
  in_docs (html_filename_of (fst e)) = in_docs (html_filename_of (fst e')) ->
  e = e'.
Proof.
  intros e e' He He' Heq. simpl in He, He'.
  repeat (destruct He as [<-|He]; [|]); try contradiction;
    repeat (destruct He' as [<-|He']; [|]); try contradiction;
    try reflexivity; vm_compute in Heq; discriminate Heq.
Qed.

(** With no source present, nothing stands in the way of the run. *)
Lemma absent_sources_convertible (w : world) :
  (forall e, In e files_to_convert -> path_exists (fst e) w = false) ->
  convertible w = true.
Proof.
  intros Hnone. apply forallb_forall. intros e He.
  specialize (Hnone e He). unfold path_exists in Hnone. unfold can_convert.
  destruct (files w !! fst e); [|reflexivity].
  rewrite bool_decide_eq_true_2 in Hnone by eauto. discriminate.
Qed.

(** C7, as the code has it: when each source that is present reads as
    UTF-8 text and its output path may be written, which is so in
    particular when no source is present, the run returns.  The output
    directory is there afterwards; one line is printed for each pair,
    in order, and for an absent source it is the warning that names the
    file; no output is written for an absent source; and when none of
    the four is present, the four warnings are printed and no file is
    written. *)
Theorem main_completes (w : world) :
  convertible w = true ->
  exists w',
    main w = Ret w' /\
    docs_dir ∈ dirs w' /\
    stdout w' = stdout w ++ map (report w) files_to_convert /\
    (forall e, In e files_to_convert -> path_exists (fst e) w = false ->
       report w e = lit "Warning: " ++ fst e ++ lit " not found" /\
       files w' !! in_docs (html_filename_of (fst e))
       = files w !! in_docs (html_filename_of (fst e))) /\
    ((forall e, In e files_to_convert -> path_exists (fst e) w = false) ->
     files w' = files w /\
     stdout w' = stdout w ++
       [lit "Warning: PRIVACY_POLICY.md not found";
        lit "Warning: TERMS_OF_SERVICE.md not found";
        lit "Warning: LICENSE not found";
        lit "Warning: COPYRIGHT not found"]).
Proof.
  intros Hcan. unfold main.
  destruct (for_each_spec files_to_convert (mkdir_exist_ok docs_dir w)
              sources_apart Hcan)
    as (w' & Hrun & Hd & _ & Ho & Hf).
  exists w'. split; [exact Hrun|]. split.
  { rewrite Hd. simpl. apply elem_of_union_l, elem_of_singleton. reflexivity. }
  split; [exact Ho|]. split.
  - intros e He Habs. split.
    + unfold report. now rewrite Habs.
    + rewrite Hf; [reflexivity|].
      intros e' He' Hex' Heq.
      apply outputs_apart in Heq; [|assumption..]. subst e'.
      change (path_exists (fst e) w = true) in Hex'. congruence.
  - intros Hnone. split.
    + apply map_eq. intros k. rewrite Hf; [reflexivity|].
      intros e He Hex. change (path_exists (fst e) w = true) in Hex.
      rewrite (Hnone e He) in Hex. discriminate.
    + rewrite Ho. f_equal.
      change (map (report w) files_to_convert
              = map (fun e => lit "Warning: " ++ fst e ++ lit " not found")
                  files_to_convert).
      apply map_ext_in. intros e He. unfold report.
      change (path_exists (fst e) (mkdir_exist_ok docs_dir w))
        with (path_exists (fst e) w).
      now rewrite (Hnone e He).
Qed.

Lemma main_completes_witness :
  convertible license_only = true /\
  exists w',
    main license_only = Ret w' /\
    docs_dir ∈ dirs w' /\
    stdout w'
    = [lit "Warning: PRIVACY_POLICY.md not found";
       lit "Warning: TERMS_OF_SERVICE.md not found";
       lit "Converted LICENSE to LICENSE.html";
       lit "Warning: COPYRIGHT not found"].
Proof.
  split; [reflexivity|].
  destruct (main_completes license_only eq_refl) as (w' & Hrun & Hdir & Hout & _).
  exists w'. split; [exact Hrun|]. split; [exact Hdir|].
  rewrite Hout. reflexivity.
Defined.

(** C7 as stated fails: a source that is present but is not UTF-8
    text ends the run at its [read()], for which the loop has no
    handler. *)
Lemma main_fails_on_unreadable_source :
  path_exists (lit "LICENSE") license_not_text = true /\
  main license_not_text = Raise UnicodeDecodeError /\
  ~ (exists w', main license_not_text = Ret w').
Proof.
  assert (H : main license_not_text = Raise UnicodeDecodeError)
    by (vm_compute; reflexivity).
  split; [reflexivity|]. split; [exact H|].
  intros [w' Hw']. rewrite H in Hw'. discriminate.
Qed.

(** With only the licence present, one page is written and three
    warnings are printed. *)
Example main_license_only : main license_only = Ret license_only_done.
Proof. vm_compute. reflexivity. Qed.

(** ** Lines *)

Lemma first_line_split (s : str) : s = first_line s ++ after_first_line s.
Proof.
  induction s as [|c s IH]; simpl; [reflexivity|].
  destruct (char_eqb c nl); simpl; congruence.
Qed.

Lemma one_line_first_line (s : str) : one_line (first_line s) = true.
Proof.
  induction s as [|c s IH]; simpl; [reflexivity|].
  destruct (char_eqb c nl) eqn:E; simpl; [reflexivity|].
  now rewrite E.
Qed.

Lemma after_first_line_cases (s : str) :
  after_first_line s = [] \/ exists s2, after_first_line s = nl :: s2.
Proof.
  induction s as [|c s IH]; simpl; [now left|].
  destruct (char_eqb c nl) eqn:E; [|exact IH].
  apply char_eqb_eq in E. subst c. right. eauto.
Qed.

Lemma after_first_line_length (s : str) :
  List.length (after_first_line s) <= List.length s.
Proof.
  induction s as [|c s IH]; simpl; [lia|].
  destruct (char_eqb c nl); simpl; lia.
Qed.

Lemma next_lines_length (s s2 : str) :
  next_lines s = Some s2 -> List.length s2 < List.length s.
Proof.
  unfold next_lines. pose proof (after_first_line_length s) as H.
  destruct (after_first_line s); [discriminate|].
  intros [= <-]. simpl in H. lia.
Qed.

Lemma first_line_one_line (l tail : str) :
  one_line l = true -> Re.at_eol Re.multiline tail = true ->
  first_line (l ++ tail) = l /\ after_first_line (l ++ tail) = tail.
Proof.
  intros Hl Ht. induction l as [|c l IH]; simpl in *.
  - destruct tail as [|c t]; [auto|]. simpl in Ht |- *.
    apply andb_true_iff in Ht as [-> _]. auto.
  - apply andb_true_iff in Hl as [Hc Hl]. apply negb_true_iff in Hc.
    rewrite Hc. destruct (IH Hl) as [-> ->]. auto.
Qed.

Lemma at_eol_after_first_line (s : str) :
  Re.at_eol Re.multiline (after_first_line s) = true.
Proof.
  destruct (after_first_line_cases s) as [->|[s2 ->]]; reflexivity.
Qed.

Lemma split_nonempty (c : char) (s : str) : split c s <> [].
Proof.
  destruct s as [|x s]; simpl; [discriminate|].
  destruct (char_eqb x c); [discriminate|].
  destruct (split c s); discriminate.
Qed.

Lemma split_first_line (s : str) :
  split nl s
  = first_line s :: match next_lines s with
                    | Some s2 => split nl s2
                    | None => []
                    end.
Proof.
  unfold next_lines. induction s as [|c s IH]; simpl; [reflexivity|].
  destruct (char_eqb c nl); [reflexivity|].
  now rewrite IH.
Qed.

Lemma join_cons (sep p : str) (ps : list str) :
  ps <> [] -> join sep (p :: ps) = p ++ sep ++ join sep ps.
Proof. destruct ps; [congruence|reflexivity]. Qed.

Lemma join_split (s : str) : join [nl] (split nl s) = s.
Proof.
  induction s as [|c s IH]; simpl split; [reflexivity|].
  destruct (char_eqb c nl) eqn:E.
  - apply char_eqb_eq in E. subst c.
    rewrite join_cons by apply split_nonempty. simpl. now rewrite IH.
  - pose proof (split_nonempty nl s) as Hne.
    destruct (split nl s) as [|l ls]; [congruence|].
    destruct ls; simpl in *; congruence.
Qed.

Lemma split_join (ls : list str) :
  ls <> [] -> forallb one_line ls = true -> split nl (join [nl] ls) = ls.
Proof.
  induction ls as [|l ls IH]; [congruence|]. intros _ H.
  simpl in H. apply andb_true_iff in H as [Hl Hls].
  destruct ls as [|l' ls].
  - simpl. clear IH Hls. induction l as [|c l IHl]; simpl in *; [reflexivity|].
    apply andb_true_iff in Hl as [Hc Hl]. apply negb_true_iff in Hc.
    rewrite Hc, (IHl Hl). reflexivity.
  - rewrite join_cons by discriminate.
    specialize (IH ltac:(discriminate) Hls).
    clear Hls. induction l as [|c l IHl]; simpl in *.
    + now rewrite IH.
    + apply andb_true_iff in Hl as [Hc Hl]. apply negb_true_iff in Hc.
      rewrite Hc, (IHl Hl). reflexivity.
Qed.

Lemma first_line_after (s : str) : first_line (after_first_line s) = [].
Proof.
  destruct (after_first_line_cases s) as [->|[s2 ->]]; reflexivity.
Qed.

Lemma next_lines_after (s : str) : next_lines (after_first_line s) = next_lines s.
Proof.
  unfold next_lines.
  destruct (after_first_line_cases s) as [->|[s2 ->]]; reflexivity.
Qed.

Lemma first_line_length (s : str) :
  List.length s = List.length (first_line s) + List.length (after_first_line s).
Proof. rewrite <- length_app, <- first_line_split. reflexivity. Qed.

Lemma firstn_app_exact (x y : str) :
  firstn (List.length (x ++ y) - List.length y) (x ++ y) = x.
Proof.
  rewrite length_app.
  replace (List.length x + List.length y - List.length y) with (List.length x + 0) by lia.
  rewrite firstn_app_2. simpl. apply app_nil_r.
Qed.

(** A marker without a line break that starts a text starts its
    first line. *)
Lemma strip_prefix_first_line (marker l tail r : str) :
  one_line marker = true -> Re.at_eol Re.multiline tail = true ->
  strip_prefix marker (l ++ tail) = Some r ->
  exists r', strip_prefix marker l = Some r' /\ r = r' ++ tail.
Proof.
  intros Hm Ht. revert l r. induction marker as [|x m IH]; intros l r H.
  - simpl in *. inversion H. eauto.
  - simpl in Hm. apply andb_true_iff in Hm as [Hx Hm].
    apply negb_true_iff in Hx.
    destruct l as [|y l]; simpl in H |- *.
    + destruct tail as [|y t]; [discriminate|].
      simpl in Ht. apply andb_true_iff in Ht as [Hy _].
      apply char_eqb_eq in Hy. subst y.
      rewrite Hx in H. discriminate.
    + destruct (char_eqb x y); [|discriminate]. now apply IH.
Qed.

Lemma one_line_app (x y : str) :
  one_line (x ++ y) = one_line x && one_line y.
Proof. apply forallb_app. Qed.

Lemma at_bol_last_seen (c : char) (rest : str) :
  one_line (c :: rest) = true ->
  Re.at_bol Re.multiline (Re.last_seen (Some c) rest) = false.
Proof.
  revert c; induction rest as [|d rest IH]; intros c H.
  - simpl in *. apply andb_true_iff in H as [H _].
    now apply negb_true_iff in H.
  - simpl in H. apply andb_true_iff in H as [_ H].
    apply (IH d). exact H.
Qed.

(** ** The line patterns *)

Section LineSubstitution.

Variables marker tag : str.
Hypothesis marker_one_line : one_line marker = true.

(** The greedy [.+] runs to the end of the line: [$] fails before. *)
Lemma star_greedy_to_eol (K : Re.cont) :
  (forall p s' g', Re.at_eol Re.multiline s' = false -> K p s' g' = None) ->
  forall l tail prev g,
    one_line l = true -> Re.at_eol Re.multiline tail = true ->
    Re.star_greedy (Re.any_ok Re.multiline) K prev (l ++ tail) g
    = K (Re.last_seen prev l) tail g.
Proof.
  intros HK l tail. induction l as [|c l IH]; intros prev g Hl Ht.
  - destruct tail as [|c t]; [reflexivity|].
    simpl in Ht. apply andb_true_iff in Ht as [Hc _].
    simpl. unfold Re.any_ok. simpl. now rewrite Hc.
  - simpl in Hl. apply andb_true_iff in Hl as [Hc Hl].
    simpl app. cbn [Re.star_greedy]. unfold Re.any_ok at 1.
    rewrite Hc. simpl orb. rewrite (IH (Some c) g Hl Ht).
    change (Re.last_seen prev (c :: l)) with (Re.last_seen (Some c) l).
    destruct (K (Re.last_seen (Some c) l) tail g) eqn:E; [reflexivity|].
    apply HK. simpl. apply negb_true_iff in Hc. now rewrite Hc.
Qed.

(** What the pattern does at a position: it matches at the start of a
    line that has the marker and at least one more character, and then
    it takes the whole line. *)
Lemma line_pattern_rmatch_at (k : Re.cont) prev l tail g :
  one_line l = true -> Re.at_eol Re.multiline tail = true ->
  Re.rmatch Re.multiline (line_pattern marker) k prev (l ++ tail) g
  = if Re.at_bol Re.multiline prev then
      match strip_prefix marker l with
      | Some (c :: rest) =>
          k (Re.last_seen (Some c) rest) tail ((1, c :: rest) :: g)
      | _ => None
      end
    else None.
Proof.
  intros Hl Ht. unfold line_pattern. cbn [Re.rmatch].
  destruct (Re.at_bol Re.multiline prev); [|reflexivity].
  destruct (strip_prefix marker l) as [r'|] eqn:E.
  - apply strip_prefix_Some in E. subst l.
    rewrite <- app_assoc, strip_prefix_app.
    rewrite one_line_app in Hl. apply andb_true_iff in Hl as [_ Hr].
    destruct r' as [|c rest].
    + simpl app. destruct tail as [|c t]; [reflexivity|].
      simpl in Ht. apply andb_true_iff in Ht as [Hc _].
      unfold Re.any_ok. simpl. now rewrite Hc.
    + simpl in Hr. apply andb_true_iff in Hr as [Hc Hr].
      simpl app. unfold Re.any_ok at 1. rewrite Hc. simpl orb.
      cbn [Re.star].
      rewrite star_greedy_to_eol; try assumption.
      * rewrite Ht.
        change (c :: rest ++ tail) with ((c :: rest) ++ tail).
        now rewrite firstn_app_exact.
      * intros p s' g' He. now rewrite He.
  - destruct (strip_prefix marker (l ++ tail)) as [r|] eqn:E'; [|reflexivity].
    destruct (strip_prefix_first_line marker l tail r marker_one_line Ht E')
      as (r' & Hr' & _). congruence.
Qed.

Lemma line_pattern_rmatch (k : Re.cont) prev s g :
  Re.rmatch Re.multiline (line_pattern marker) k prev s g
  = if Re.at_bol Re.multiline prev then
      match strip_prefix marker (first_line s) with
      | Some (c :: rest) =>
          k (Re.last_seen (Some c) rest) (after_first_line s) ((1, c :: rest) :: g)
      | _ => None
      end
    else None.
Proof.
  rewrite <- (line_pattern_rmatch_at k prev (first_line s) (after_first_line s) g).
  - now rewrite <- first_line_split.
  - apply one_line_first_line.
  - apply at_eol_after_first_line.
Qed.

Lemma convert_lines_first_line (s : str) :
  convert_lines marker tag s
  = convert_line marker tag (first_line s) ++ convert_next_lines marker tag s.
Proof.
  unfold convert_lines, convert_next_lines. rewrite split_first_line.
  destruct (next_lines s) as [s2|]; simpl map.
  - rewrite join_cons; [reflexivity|].
    pose proof (split_nonempty nl s2). destruct (split nl s2); [congruence|discriminate].
  - simpl. now rewrite app_nil_r.
Qed.

(** The scan, from the start of a line and from inside a line. *)
Lemma sub_loop_lines : forall n s fuel prev,
  List.length s < n -> List.length s < fuel ->
  Re.sub_loop fuel Re.multiline (line_pattern marker) (tag_template tag) false prev s
  = Ret (if Re.at_bol Re.multiline prev
         then convert_lines marker tag s
         else first_line s ++ convert_next_lines marker tag s).
Proof.
  induction n as [|n IH]; intros s fuel prev Hn Hf; [lia|].
  destruct fuel as [|fuel]; [lia|].
  assert (Hcopy :
    match s with
    | [] => Ret []
    | c :: s' =>
        let* out := Re.sub_loop fuel Re.multiline (line_pattern marker)
                      (tag_template tag) false (Some c) s' in
        Ret (c :: out)
    end = Ret (first_line s ++ convert_next_lines marker tag s)).
  { destruct s as [|c s']; [reflexivity|].
    simpl in Hn, Hf. rewrite IH by lia.
    unfold convert_next_lines, next_lines. simpl.
    destruct (char_eqb c nl) eqn:Ec.
    - apply char_eqb_eq in Ec. subst c. reflexivity.
    - reflexivity. }
  cbn [Re.sub_loop]. rewrite line_pattern_rmatch.
  destruct (Re.at_bol Re.multiline prev); [|exact Hcopy].
  rewrite convert_lines_first_line. unfold convert_line.
  destruct (strip_prefix marker (first_line s)) as [[|c rest]|] eqn:E;
    try exact Hcopy.
  unfold Re.accept. simpl andb. cbv iota.
  pose proof (first_line_length s) as Hlen.
  apply strip_prefix_length in E as Hlen'. simpl in Hlen'.
  assert (Hone : one_line (c :: rest) = true).
  { pose proof (one_line_first_line s) as Hl.
    apply strip_prefix_Some in E. rewrite E, one_line_app in Hl.
    now apply andb_true_iff in Hl as [_ Hl]. }
  replace (List.length (after_first_line s) =? List.length s) with false
    by (symmetry; apply Nat.eqb_neq; lia).
  rewrite IH by lia.
  rewrite (at_bol_last_seen c rest Hone).
  rewrite first_line_after. cbn [bind app].
  unfold convert_next_lines. rewrite next_lines_after.
  unfold tag_template. cbn [Re.expand Re.group Nat.eqb].
  f_equal. rewrite app_nil_r, <- !app_assoc. cbn [app].
  rewrite <- !app_assoc. reflexivity.
Qed.

(** The substitution converts the text line by line. *)
Lemma sub_line_pattern (s : str) :
  Re.sub Re.multiline (line_pattern marker) (tag_template tag) s
  = Ret (convert_lines marker tag s).
Proof.
  unfold Re.sub. simpl Re.check_template. cbn [bind].
  rewrite (sub_loop_lines (S (List.length s))) by lia.
  reflexivity.
Qed.

End LineSubstitution.

Lemma convert_line_bare_marker (marker tag : str) :
  convert_line marker tag marker = marker.
Proof.
  unfold convert_line.
  pose proof (strip_prefix_app marker []) as H.
  rewrite app_nil_r in H. now rewrite H.
Qed.

(** C10: the header and list-item patterns ask for a character after
    the marker.  In a text of lines, a line that is exactly the marker
    is left as it is by the substitution of that marker, while the
    other lines are converted; and paragraph assembly then takes the
    marker line, stripped, into the paragraph buffer. *)
Theorem bare_marker_line_unchanged (marker tag : str) (before after : list str) :
  In (marker, tag) line_substitutions ->
  forallb one_line before = true ->
  forallb one_line after = true ->
  Re.sub Re.multiline (line_pattern marker) (tag_template tag)
    (join [nl] (before ++ marker :: after))
  = Ret (join [nl] (map (convert_line marker tag) before
                    ++ marker :: map (convert_line marker tag) after))
  /\ (forall paragraphs current_para,
        para_step (paragraphs, current_para) marker
        = (paragraphs, current_para ++ [strip marker])).
Proof.
  intros Hin Hb Ha.
  assert (Hm : one_line marker = true /\
               forall ps cur, para_step (ps, cur) marker = (ps, cur ++ [strip marker])).
  { simpl in Hin.
    repeat (destruct Hin as [[= <- <-]|Hin]; [split; reflexivity|]).
    contradiction. }
  destruct Hm as [Hm Hpara]. split; [|exact Hpara].
  rewrite (sub_line_pattern marker tag Hm). unfold convert_lines.
  rewrite split_join.
  - now rewrite map_app, map_cons, convert_line_bare_marker.
  - destruct before; discriminate.
  - rewrite forallb_app. simpl. now rewrite Hb, Hm, Ha.
Qed.

Lemma bare_marker_line_unchanged_witness :
  In (lit "# ", lit "h1") line_substitutions /\
  forallb one_line [lit "# Terms"; lit "## "] = true /\
  forallb one_line [lit "#"; lit "# Use"] = true /\
  Re.sub Re.multiline (line_pattern (lit "# ")) (tag_template (lit "h1"))
    (join [nl] ([lit "# Terms"; lit "## "] ++ lit "# " :: [lit "#"; lit "# Use"]))
  = Ret (join [nl] ([lit "<h1>Terms</h1>"; lit "## "]
                    ++ lit "# " :: [lit "#"; lit "<h1>Use</h1>"])).
Proof.
  split; [left; reflexivity|]. split; [reflexivity|]. split; [reflexivity|].
  exact (proj1 (bare_marker_line_unchanged (lit "# ") (lit "h1")
                  [lit "# Terms"; lit "## "] [lit "#"; lit "# Use"]
                  (or_introl eq_refl) eq_refl eq_refl)).
Defined.

(** A document of the four bare markers becomes one paragraph. *)
Example bare_markers_document :
  markdown_to_html_simple
    (join [nl] [lit "# "; lit "## "; lit "### "; lit "- "]) (lit "T")
  = Ret (shell_head (lit "T") ++ lit "<p># ## ### -</p>" ++ shell_foot).
Proof. vm_compute. reflexivity. Qed.

(** ** Scans that find nothing, and scans that copy a prefix *)

Section Scan.

Variables (fl : Re.flags) (r : Re.regex) (t : Re.template).

Lemma sub_loop_no_match : forall s fuel ma prev,
  List.length s < fuel ->
  (forall u v k p g, s = u ++ v -> Re.rmatch fl r k p v g = None) ->
  Re.sub_loop fuel fl r t ma prev s = Ret s.
Proof.
  induction s as [|c s IH]; intros fuel ma prev Hf Hno;
    (destruct fuel as [|fuel]; [simpl in Hf; lia|]); cbn [Re.sub_loop].
  - now rewrite (Hno [] []).
  - rewrite (Hno [] (c :: s)) by reflexivity.
    rewrite IH; [reflexivity|simpl in Hf; lia|].
    intros u v k p g ->. now apply (Hno (c :: u) v).
Qed.

Lemma sub_loop_copy : forall a rest fuel prev,
  (forall u v k p g, a = u ++ v -> v <> [] ->
     Re.rmatch fl r k p (v ++ rest) g = None) ->
  Re.sub_loop (List.length a + fuel) fl r t false prev (a ++ rest)
  = let* out := Re.sub_loop fuel fl r t false (Re.last_seen prev a) rest in
    Ret (a ++ out).
Proof.
  induction a as [|c a IH]; intros rest fuel prev Hno.
  - simpl. destruct (Re.sub_loop fuel fl r t false prev rest); reflexivity.
  - simpl List.length. simpl plus. simpl app. cbn [Re.sub_loop].
    rewrite (Hno [] (c :: a)) by (reflexivity || discriminate).
    rewrite IH.
    + change (Re.last_seen prev (c :: a)) with (Re.last_seen (Some c) a).
      destruct (Re.sub_loop fuel fl r t false (Re.last_seen (Some c) a) rest);
        reflexivity.
    + intros u v k p g -> Hv. now apply (Hno (c :: u) v).
Qed.

End Scan.

(** ** Occurrences *)

Lemma startswith_false (s p : str) :
  startswith s p = false -> strip_prefix p s = None.
Proof. unfold startswith. destruct (strip_prefix p s); [discriminate|reflexivity]. Qed.

Lemma contains_app_false (u w p : str) :
  contains (u ++ w) p = false -> contains w p = false.
Proof.
  induction u as [|x u IH]; [trivial|].
  simpl. intros H. apply orb_false_iff in H as [_ H]. now apply IH.
Qed.

Lemma contains_startswith (w p : str) :
  contains w p = false -> startswith w p = false.
Proof.
  destruct w; simpl; intros H; now apply orb_false_iff in H as [H _].
Qed.


Lemma contains_here (p c : str) : contains (p ++ c) p = true.
Proof.
  assert (H : startswith (p ++ c) p = true)
    by (unfold startswith; now rewrite strip_prefix_app).
  destruct (p ++ c); simpl; now rewrite H.
Qed.


(** Before the first occurrence there is none. *)
Lemma find_first (p rest : str) : forall a,
  find (a ++ rest) p = Some (List.length a) ->
  forall u v, a = u ++ v -> v <> [] -> startswith (v ++ rest) p = false.
Proof.
  induction a as [|x a IH]; intros H u v Huv Hv.
  - destruct u; [simpl in Huv; congruence|discriminate].
  - simpl in H. destruct (startswith (x :: a ++ rest) p) eqn:E; [discriminate|].
    destruct (find (a ++ rest) p) as [n|] eqn:F; [|discriminate].
    simpl in H. inversion H; subst n.
    destruct u as [|y u]; simpl in Huv.
    + subst v. exact E.
    + inversion Huv; subst. now apply (IH eq_refl u v).
Qed.

(** ** The list pattern *)

Lemma star_greedy_none (ok : char -> bool) (K : Re.cont) (g : Re.groups) :
  forall s, (forall u w p, s = u ++ w -> K p w g = None) ->
  forall prev, Re.star_greedy ok K prev s g = None.
Proof.
  induction s as [|c s IH]; intros Hno prev; simpl.
  - now apply (Hno [] []).
  - assert (Hs : K prev (c :: s) g = None) by now apply (Hno [] (c :: s)).
    destruct (ok c); [|exact Hs].
    rewrite IH; [exact Hs|].
    intros u w p ->. now apply (Hno (c :: u) w).
Qed.

Lemma star_greedy_first (ok : char -> bool) (K : Re.cont) (g : Re.groups)
    (v : str) (prev : option char) :
  (forall u w p, v = u ++ w -> u <> [] -> K p w g = None) ->
  Re.star_greedy ok K prev v g = K prev v g.
Proof.
  intros Hno. destruct v as [|c v]; [reflexivity|]. simpl.
  destruct (ok c); [|reflexivity].
  rewrite star_greedy_none; [reflexivity|].
  intros u w p ->. apply (Hno (c :: u) w); [reflexivity|discriminate].
Qed.

(** A greedy [.*] under DOTALL ends at the last place where the rest
    of the pattern matches. *)
Lemma star_greedy_last (ok : char -> bool) (K : Re.cont) (g : Re.groups)
    (v : str) (res : Re.found) :
  (forall c, ok c = true) ->
  (forall u w p, v = u ++ w -> u <> [] -> K p w g = None) ->
  forall b prev,
    K (Re.last_seen prev b) v g = Some res ->
    Re.star_greedy ok K prev (b ++ v) g = Some res.
Proof.
  intros Hok Hno. induction b as [|x b IH]; intros prev HK.
  - simpl app. now rewrite star_greedy_first.
  - simpl app. cbn [Re.star_greedy]. rewrite Hok.
    now rewrite (IH (Some x) HK).
Qed.

(** No [</li>] starts inside a [</li>]. *)
Lemma li_close_apart (c u w : str) :
  contains c li_close = false ->
  li_close ++ c = u ++ w -> u <> [] ->
  strip_prefix li_close w = None.
Proof.
  intros Hc H Hu.
  destruct u as [|x1 [|x2 [|x3 [|x4 [|x5 u]]]]]; [congruence|..];
    simpl in H; inversion H; subst; try reflexivity.
  apply startswith_false, contains_startswith.
  now apply (contains_app_false u).
Qed.

(** At a [<li>] that is followed by a [</li>], the pattern matches
    up to the last [</li>] of the text. *)
Lemma list_pattern_span (k : Re.cont) prev b c g res :
  contains c li_close = false ->
  k (Some 62%N) c ((1, li_open ++ b ++ li_close) :: g) = Some res ->
  Re.rmatch Re.dotall list_pattern k prev (li_open ++ b ++ li_close ++ c) g
  = Some res.
Proof.
  intros Hc Hk. unfold list_pattern. cbn [Re.rmatch].
  fold li_open li_close. rewrite strip_prefix_app. cbn [Re.star].
  apply star_greedy_last.
  - reflexivity.
  - intros u w p Huw Hu. now rewrite (li_close_apart c u w).
  - rewrite strip_prefix_app.
    replace (li_open ++ b ++ li_close ++ c) with ((li_open ++ b ++ li_close) ++ c)
      by (now rewrite <- !app_assoc).
    rewrite firstn_app_exact. exact Hk.
Qed.

(** Where no [<li>] is followed by a [</li>], it does not match. *)
Lemma list_pattern_no_span (k : Re.cont) prev s g :
  match strip_prefix li_open s with
  | Some s1 => contains s1 li_close
  | None => false
  end = false ->
  Re.rmatch Re.dotall list_pattern k prev s g = None.
Proof.
  intros H. unfold list_pattern. cbn [Re.rmatch]. fold li_open li_close.
  destruct (strip_prefix li_open s) as [s1|]; [|reflexivity].
  cbn [Re.star]. apply star_greedy_none.
  intros u w p ->.
  now rewrite (startswith_false _ _ (contains_startswith _ _ (contains_app_false u w _ H))).
Qed.

Lemma has_list_span_here (s : str) :
  has_list_span s = false ->
  match strip_prefix li_open s with
  | Some s1 => contains s1 li_close
  | None => false
  end = false.
Proof.
  destruct s; simpl; intros H; [reflexivity|].
  now apply orb_false_iff in H as [H _].
Qed.

Lemma has_list_span_app (u v : str) :
  has_list_span (u ++ v) = false -> has_list_span v = false.
Proof.
  induction u as [|x u IH]; [trivial|].
  simpl app. intros H. apply IH.
  simpl in H. now apply orb_false_iff in H as [_ H].
Qed.

(** Without such a span the substitution changes nothing. *)
Lemma sub_list_pattern_no_span (s : str) :
  has_list_span s = false ->
  Re.sub Re.dotall list_pattern (tag_template (lit "ul")) s = Ret s.
Proof.
  intros H. unfold Re.sub. simpl Re.check_template. cbn [bind].
  apply sub_loop_no_match; [lia|].
  intros u v k p g ->. apply list_pattern_no_span, has_list_span_here.
  now apply (has_list_span_app u).
Qed.

(** With the first [<li>] after [a] and the last [</li>] before [c],
    the one match is everything between. *)
Lemma sub_list_pattern_span (a b c : str) :
  find (a ++ li_open ++ b ++ li_close ++ c) li_open = Some (List.length a) ->
  contains c li_close = false ->
  Re.sub Re.dotall list_pattern (tag_template (lit "ul"))
    (a ++ li_open ++ b ++ li_close ++ c)
  = Ret (a ++ lit "<ul>" ++ (li_open ++ b ++ li_close) ++ lit "</ul>" ++ c).
Proof.
  intros Ha Hc. unfold Re.sub. simpl Re.check_template. cbn [bind].
  set (rest := li_open ++ b ++ li_close ++ c) in *.
  replace (2 * List.length (a ++ rest) + 2)
    with (List.length a + S (List.length a + 2 * List.length rest + 1))
    by (rewrite length_app; lia).
  rewrite sub_loop_copy.
  - cbn [Re.sub_loop]. unfold rest at 2.
    rewrite (list_pattern_span _ _ b c []
               ([(1, li_open ++ b ++ li_close)], Some 62%N, c) Hc)
      by reflexivity.
    replace (List.length c =? List.length rest) with false
      by (symmetry; apply Nat.eqb_neq; unfold rest;
          rewrite !length_app; simpl; lia).
    rewrite sub_loop_no_match.
    + cbn [bind]. unfold tag_template.
      cbn [Re.expand Re.group Nat.eqb]. do 2 f_equal.
      change (lit "<" ++ lit "ul" ++ lit ">") with (lit "<ul>").
      change (lit "</" ++ lit "ul" ++ lit ">") with (lit "</ul>").
      now rewrite app_nil_r, <- !app_assoc.
    + unfold rest. rewrite !length_app. lia.
    + intros u v k p g ->. apply list_pattern_no_span.
      destruct (strip_prefix li_open v) as [s1|] eqn:E; [|reflexivity].
      apply strip_prefix_Some in E. subst v.
      apply (contains_app_false li_open), (contains_app_false u). exact Hc.
  - intros u v k p g Huv Hv. unfold list_pattern. cbn [Re.rmatch].
    fold li_open.
    now rewrite (startswith_false _ _ (find_first li_open rest a Ha u v Huv Hv)).
Qed.





(** The two blocks of that document end up in one list. *)
Example two_list_blocks_merged :
  markdown_to_html_simple two_list_blocks (lit "T")
  = Ret (shell_head (lit "T")
         ++ join [nl] [lit "<p>Intro</p>"; lit "<ul><li>a</li>";
                       lit "<p>Between</p>"; lit "<li>b</li></ul>";
                       lit "<p>End</p>"]
         ++ shell_foot).
Proof. vm_compute. reflexivity. Qed.

(** ** Text without markdown syntax *)

Lemma forallb_weaken {A : Type} (P Q : A -> bool) (l : list A) :
  (forall x, P x = true -> Q x = true) ->
  forallb P l = true -> forallb Q l = true.
Proof.
  intros HPQ H. apply forallb_forall. intros x Hx.
  apply HPQ. revert x Hx. now apply forallb_forall.
Qed.

(** A line substitution leaves a text alone when no line starts with
    its marker. *)
Lemma sub_line_pattern_plain (marker tag s : str) :
  one_line marker = true ->
  forallb (fun l => negb (startswith l marker)) (split nl s) = true ->
  Re.sub Re.multiline (line_pattern marker) (tag_template tag) s = Ret s.
Proof.
  intros Hm H. rewrite (sub_line_pattern marker tag Hm). unfold convert_lines.
  rewrite <- (join_split s) at 2. do 2 f_equal.
  rewrite <- (map_id (split nl s)) at 2.
  apply map_ext_in. intros l Hl.
  pose proof (proj1 (forallb_forall _ _) H l Hl) as Hn.
  apply negb_true_iff, startswith_false in Hn.
  unfold convert_line. now rewrite Hn.
Qed.

(** A span substitution leaves a text without asterisks alone. *)
Lemma sub_span_pattern_plain (delim tag s : str) :
  startswith delim [star_sign] = true ->
  forallb (fun c => negb (char_eqb c star_sign)) s = true ->
  Re.sub Re.no_flags (span_pattern delim) (tag_template tag) s = Ret s.
Proof.
  intros Hd H. unfold Re.sub. simpl Re.check_template. cbn [bind].
  apply sub_loop_no_match; [lia|].
  intros u v k p g ->. rewrite forallb_app in H.
  apply andb_true_iff in H as [_ H].
  unfold span_pattern. cbn [Re.rmatch].
  apply startswith_true in Hd as [d ->].
  destruct v as [|y v]; [reflexivity|].
  simpl in H. apply andb_true_iff in H as [Hy _]. apply negb_true_iff in Hy.
  simpl. replace (char_eqb star_sign y) with false; [reflexivity|].
  symmetry. apply char_eqb_neq. apply char_eqb_neq in Hy. congruence.
Qed.

Lemma plain_line_parts (line : str) :
  plain_line line = true ->
  startswith line (lit "# ") = false /\
  startswith line (lit "## ") = false /\
  startswith line (lit "### ") = false /\
  startswith line (lit "- ") = false /\
  startswith (strip line) (lit "<") = false.
Proof.
  unfold plain_line. intros H.
  repeat (apply andb_true_iff in H as [H ?]).
  repeat split; now apply negb_true_iff.
Qed.

(** The substitutions do nothing to a text without markdown syntax in
    which no [<li>] is followed by a [</li>]. *)
Lemma convert_inline_plain (s : str) :
  no_markdown s = true -> has_list_span s = false -> convert_inline s = Ret s.
Proof.
  unfold no_markdown. intros H Hspan.
  apply andb_true_iff in H as [Hlines Hstar].
  unfold convert_inline.
  rewrite sub_line_pattern_plain; [cbn [bind]|reflexivity|].
  2: { revert Hlines. apply forallb_weaken. intros l Hl.
       apply plain_line_parts in Hl. apply negb_true_iff. tauto. }
  rewrite sub_line_pattern_plain; [cbn [bind]|reflexivity|].
  2: { revert Hlines. apply forallb_weaken. intros l Hl.
       apply plain_line_parts in Hl. apply negb_true_iff. tauto. }
  rewrite sub_line_pattern_plain; [cbn [bind]|reflexivity|].
  2: { revert Hlines. apply forallb_weaken. intros l Hl.
       apply plain_line_parts in Hl. apply negb_true_iff. tauto. }
  rewrite sub_span_pattern_plain; [cbn [bind]|reflexivity|exact Hstar].
  rewrite sub_span_pattern_plain; [cbn [bind]|reflexivity|exact Hstar].
  rewrite sub_line_pattern_plain; [cbn [bind]|reflexivity|].
  2: { revert Hlines. apply forallb_weaken. intros l Hl.
       apply plain_line_parts in Hl. apply negb_true_iff. tauto. }
  now apply sub_list_pattern_no_span.
Qed.

(** ** Paragraphs of plain lines *)

Lemma prepend_snoc (cur : list str) (x : str) (joins : bool) (rs : list (list str)) :
  prepend (cur ++ [x]) joins rs
  = if joins then
      match rs with
      | r :: rs' => (cur ++ x :: r) :: rs'
      | [] => [cur ++ [x]]
      end
    else (cur ++ [x]) :: rs.
Proof.
  unfold prepend. destruct (cur ++ [x]) eqn:E.
  - now destruct cur.
  - rewrite <- E. destruct joins; [|reflexivity].
    destruct rs; [reflexivity|]. now rewrite <- app_assoc.
Qed.

Lemma runs_cons (l : str) (rest : list str) :
  runs (l :: rest)
  = if blank l then runs rest
    else match rest with
         | next :: _ =>
             if blank next then [l] :: runs rest
             else match runs rest with
                  | r :: rs => (l :: r) :: rs
                  | [] => [[l]]
                  end
         | [] => [[l]]
         end.
Proof. reflexivity. Qed.

Lemma para_step_plain (paragraphs current_para : list str) (line : str) :
  startswith (strip line) (lit "<") = false ->
  para_step (paragraphs, current_para) line
  = if blank line then (flush paragraphs current_para, [])
    else (paragraphs, current_para ++ [strip line]).
Proof. intros H. unfold para_step, blank. now rewrite H. Qed.

Lemma flush_paragraph (cur : list str) :
  flush [] cur = map paragraph (prepend cur false []).
Proof. now destruct cur. Qed.

(** The loop with its buffer against the runs of the lines. *)
Lemma assemble_runs (lines : list str) : forall cur,
  forallb (fun l => negb (startswith (strip l) (lit "<"))) lines = true ->
  (let '(ps, c) := fold_left para_step lines ([], cur) in flush ps c)
  = map paragraph
      (prepend cur (head_nonblank lines) (map (map strip) (runs lines))).
Proof.
  induction lines as [|l lines IH]; intros cur H.
  - simpl. now destruct cur.
  - simpl in H. apply andb_true_iff in H as [Hl H].
    apply negb_true_iff in Hl.
    cbn [fold_left]. rewrite (para_step_plain _ _ _ Hl), runs_cons.
    cbn [head_nonblank].
    destruct (blank l) eqn:Eb; cbn [negb].
    + rewrite assemble_fold, (IH [] H). cbn [prepend].
      destruct cur; [reflexivity|]. reflexivity.
    + rewrite (IH _ H), prepend_snoc.
      destruct lines as [|next lines'].
      * cbn [head_nonblank]. simpl map. now destruct cur.
      * cbn [head_nonblank].
        destruct (blank next) eqn:En; cbn [negb].
        -- cbn [map]. now destruct cur.
        -- destruct (runs (next :: lines')) as [|r rs]; cbn [map];
             now destruct cur.
Qed.

Lemma assemble_paragraphs_runs (lines : list str) :
  forallb (fun l => negb (startswith (strip l) (lit "<"))) lines = true ->
  assemble_paragraphs lines
  = map (fun run => paragraph (map strip run)) (runs lines).
Proof.
  intros H. unfold assemble_paragraphs. rewrite (assemble_runs lines [] H).
  cbn [prepend]. now rewrite map_map.
Qed.

(** C3, as the code has it: for a text without markdown syntax (no
    line starting with a header or list marker, no asterisk, no line
    whose first non-blank character is [<]) in which no [<li>] is
    followed by a [</li>], the output is the shell around one paragraph
    tag for each maximal run of consecutive non-blank lines, holding
    the lines of the run, each stripped of the whitespace around it,
    joined by single spaces. *)
Theorem plain_text_paragraphs (content title : str) :
  no_markdown content = true ->
  has_list_span content = false ->
  markdown_to_html_simple content title
  = Ret (shell_head title
         ++ join [nl] (map (fun run => lit "<p>" ++ join (lit " ") (map strip run)
                                       ++ lit "</p>")
                         (runs (split nl content)))
         ++ shell_foot).
Proof.
  intros Hmd Hspan. unfold markdown_to_html_simple.
  rewrite (convert_inline_plain content Hmd Hspan). cbn [bind].
  rewrite assemble_paragraphs_runs.
  - now rewrite <- app_assoc.
  - unfold no_markdown in Hmd. apply andb_true_iff in Hmd as [Hlines _].
    revert Hlines. apply forallb_weaken. intros l Hl.
    apply plain_line_parts in Hl. apply negb_true_iff. tauto.
Qed.

Lemma plain_text_paragraphs_witness :
  no_markdown two_plain_runs = true /\
  has_list_span two_plain_runs = false /\
  markdown_to_html_simple two_plain_runs (lit "T")
  = Ret (shell_head (lit "T")
         ++ join [nl] [lit "<p>Terms of use</p>"; lit "<p>Last line <li></p>"]
         ++ shell_foot).
Proof.
  split; [reflexivity|]. split; [reflexivity|].
  exact (plain_text_paragraphs two_plain_runs (lit "T") eq_refl eq_refl).
Defined.

Lemma substring_occurrences (p s : str) :
  substring p s -> occurrences s p <> [].
Proof.
  intros (pre & post & ->) H.
  pose proof (occurrences_app pre p post) as Hin.
  rewrite H in Hin. exact Hin.
Qed.

(** C3 as stated fails twice.  A text without markdown syntax may hold
    a [<li>] followed by a [</li>] inside a line, and list wrapping
    then adds an unordered-list tag to the text; and the lines of a run
    are stripped before they are joined, so a line with whitespace
    around it does not appear as it was. *)
Lemma plain_text_not_preserved :
  (no_markdown (lit "a <li>x</li> b") = true /\
   markdown_to_html_simple (lit "a <li>x</li> b") (lit "T")
   = Ret (shell_head (lit "T") ++ lit "<p>a <ul><li>x</li></ul> b</p>" ++ shell_foot) /\
   ~ substring (lit "<p>a <li>x</li> b</p>")
       (shell_head (lit "T") ++ lit "<p>a <ul><li>x</li></ul> b</p>" ++ shell_foot)) /\
  (no_markdown (lit "  a ") = true /\
   markdown_to_html_simple (lit "  a ") (lit "T")
   = Ret (shell_head (lit "T") ++ lit "<p>a</p>" ++ shell_foot) /\
   ~ substring (lit "<p>  a </p>")
       (shell_head (lit "T") ++ lit "<p>a</p>" ++ shell_foot)).
Proof.
  split; (split; [reflexivity|]); (split; [vm_compute; reflexivity|]);
    intros H; apply substring_occurrences in H; apply H;
    vm_compute; reflexivity.
Qed.

(** * Further properties of the converter and the driver *)

(** ** Line substitutions *)

(** X1: each of the four line substitutions rewrites the text line by
    line: the lines are those of [split], and a line is wrapped in the
    tag when it starts with the marker and goes on after it. *)
Theorem line_substitution_by_lines (marker tag s : str) :
  In (marker, tag) line_substitutions ->
  Re.sub Re.multiline (line_pattern marker) (tag_template tag) s
  = Ret (join [nl] (map (convert_line marker tag) (split nl s))).
Proof.
  intros Hin.
  assert (Hm : one_line marker = true).
  { simpl in Hin.
    repeat (destruct Hin as [[= <- <-]|Hin]; [reflexivity|]). contradiction. }
  exact (sub_line_pattern marker tag Hm s).
Qed.

Lemma line_substitution_by_lines_witness :
  In (lit "## ", lit "h2") line_substitutions /\
  Re.sub Re.multiline (line_pattern (lit "## ")) (tag_template (lit "h2"))
    (join [nl] [lit "## Scope"; lit "# Top"; lit "##Near"; lit " ## In"; lit "## "])
  = Ret (join [nl] [lit "<h2>Scope</h2>"; lit "# Top"; lit "##Near"; lit " ## In";
                    lit "## "]).
Proof.
  split; [right; left; reflexivity|].
  exact (line_substitution_by_lines (lit "## ") (lit "h2")
           (join [nl] [lit "## Scope"; lit "# Top"; lit "##Near"; lit " ## In";
                       lit "## "])
           (or_intror (or_introl eq_refl))).
Defined.

(** ** Paragraph breaks *)

Lemma para_step_blank (paragraphs current_para : list str) (line : str) :
  blank line = true ->
  para_step (paragraphs, current_para) line = (flush paragraphs current_para, []).
Proof. intros H. unfold para_step. unfold blank in H. now rewrite H. Qed.

(** X2: a blank line is a paragraph break and nothing more: the body
    of the lines around it is the body of the lines before it followed
    by the body of the lines after it. *)
Theorem blank_line_breaks (line : str) (before after : list str) :
  blank line = true ->
  assemble_paragraphs (before ++ line :: after)
  = assemble_paragraphs before ++ assemble_paragraphs after.
Proof.
  intros H. unfold assemble_paragraphs.
  rewrite fold_left_app. cbn [fold_left].
  destruct (fold_left para_step before ([], [])) as [ps cur].
  rewrite (para_step_blank _ _ _ H).
  apply (assemble_fold after (flush ps cur) []).
Qed.

Lemma blank_line_breaks_witness :
  blank (lit "  ") = true /\
  assemble_paragraphs ([lit "one"; lit "two"] ++ lit "  " :: [lit ""; lit "three"])
  = assemble_paragraphs [lit "one"; lit "two"]
    ++ assemble_paragraphs [lit ""; lit "three"].
Proof.
  split; [reflexivity|].
  exact (blank_line_breaks (lit "  ") [lit "one"; lit "two"] [lit ""; lit "three"]
           eq_refl).
Defined.

(** ** The title *)

(** X3: the title goes, as it is, between the two fixed parts of the
    head, and nothing else depends on it: the body is a function of
    the content alone. *)
Theorem body_independent_of_title (md_content : str) :
  exists body,
    forall title,
      markdown_to_html_simple md_content title
      = Ret (head_before_title ++ title ++ head_after_title ++ body ++ shell_foot).
Proof.
  destruct (convert_inline_returns md_content) as [out H].
  exists (join [nl] (assemble_paragraphs (split nl out))).
  intros title. unfold markdown_to_html_simple. rewrite H. cbn [bind].
  rewrite shell_head_title. now rewrite <- !app_assoc.
Qed.

(** ** Output names *)

Lemma replace_absent (s old new : str) :
  contains s old = false -> replace s old new = s.
Proof.
  unfold replace. induction s as [|c s IH]; intros H; [reflexivity|].
  simpl in H. apply orb_false_iff in H as [H1 H2].
  cbn [replace_from]. rewrite H1. f_equal. now apply IH.
Qed.

(** X4: a name in which none of [.md], [LICENSE] and [COPYRIGHT]
    occurs is its own output name: no [.html] is appended to it. *)
Theorem html_filename_without_patterns (filename : str) :
  contains filename (lit ".md") = false ->
  contains filename (lit "LICENSE") = false ->
  contains filename (lit "COPYRIGHT") = false ->
  html_filename_of filename = filename.
Proof.
  intros H1 H2 H3. unfold html_filename_of.
  rewrite (replace_absent filename) by exact H1.
  rewrite (replace_absent filename) by exact H2.
  now apply replace_absent.
Qed.

Lemma html_filename_without_patterns_witness :
  contains (lit "README") (lit ".md") = false /\
  contains (lit "README") (lit "LICENSE") = false /\
  contains (lit "README") (lit "COPYRIGHT") = false /\
  html_filename_of (lit "README") = lit "README".
Proof.
  repeat (split; [reflexivity|]).
  exact (html_filename_without_patterns (lit "README") eq_refl eq_refl eq_refl).
Defined.

Lemma replace_from_skip (old new y b : str) :
  replace_from old new (List.length y) (y ++ b) = replace_from old new 0 b.
Proof.
  induction y as [|c y IH]; [reflexivity|]. simpl. exact IH.
Qed.

(** The first occurrence is replaced, and the scan goes on after it. *)
Lemma replace_first (old new b : str) : old <> [] -> forall a,
  find (a ++ old ++ b) old = Some (List.length a) ->
  replace (a ++ old ++ b) old new = a ++ new ++ replace b old new.
Proof.
  intros Hold. unfold replace. induction a as [|c a IH]; intros H.
  - destruct old as [|y old]; [congruence|].
    simpl app. cbn [replace_from].
    replace (startswith (y :: old ++ b) (y :: old)) with true
      by (symmetry; unfold startswith;
          change (y :: old ++ b) with ((y :: old) ++ b);
          now rewrite strip_prefix_app).
    replace (List.length (y :: old) - 1) with (List.length old)
      by (simpl; lia).
    now rewrite replace_from_skip.
  - simpl app in H |- *. cbn [find] in H.
    destruct (startswith (c :: a ++ old ++ b) old) eqn:E; [discriminate|].
    destruct (find (a ++ old ++ b) old) as [n|] eqn:F; [|discriminate].
    simpl in H. inversion H; subst n.
    cbn [replace_from]. rewrite E. f_equal. now apply IH.
Qed.

(** X5: a name that ends in [.md], with no [.md] before, gets [.html]
    in place of the suffix, as long as the new name holds neither
    [LICENSE] nor [COPYRIGHT]. *)
Theorem md_suffix_replaced (stem : str) :
  find (stem ++ lit ".md") (lit ".md") = Some (List.length stem) ->
  contains (stem ++ lit ".html") (lit "LICENSE") = false ->
  contains (stem ++ lit ".html") (lit "COPYRIGHT") = false ->
  html_filename_of (stem ++ lit ".md") = stem ++ lit ".html".
Proof.
  intros H1 H2 H3. unfold html_filename_of.
  pose proof (replace_first (lit ".md") (lit ".html") [] ltac:(discriminate) stem) as R.
  rewrite !app_nil_r in R. rewrite (R H1).
  rewrite (replace_absent (stem ++ lit ".html")) by exact H2.
  now apply replace_absent.
Qed.

Lemma md_suffix_replaced_witness :
  find (lit "docs.v2" ++ lit ".md") (lit ".md") = Some (List.length (lit "docs.v2")) /\
  contains (lit "docs.v2" ++ lit ".html") (lit "LICENSE") = false /\
  contains (lit "docs.v2" ++ lit ".html") (lit "COPYRIGHT") = false /\
  html_filename_of (lit "docs.v2" ++ lit ".md") = lit "docs.v2" ++ lit ".html".
Proof.
  repeat (split; [reflexivity|]).
  exact (md_suffix_replaced (lit "docs.v2") eq_refl eq_refl eq_refl).
Defined.

(** ** What the run writes *)

(** A loop that returns met no source it could not convert. *)
Lemma for_each_returns_inv (entries : list (str * str)) : forall w w',
  (forall e e', In e entries -> In e' entries ->
     fst e <> in_docs (html_filename_of (fst e'))) ->
  for_each entries w = Ret w' ->
  forallb (can_convert w) entries = true.
Proof.
  induction entries as [|e0 entries IH]; intros w w' Hsep Hrun; [reflexivity|].
  cbn [for_each] in Hrun.
  destruct (convert_file w e0) as [w1| |] eqn:E1; cbn [bind] in Hrun;
    try discriminate Hrun.
  pose proof (convert_file_returns_inv w w1 e0 E1) as Hcan0.
  destruct (convert_file_spec w e0 Hcan0) as (w1' & Hrun1 & _ & Hu1 & _ & Hf1).
  assert (w1' = w1) by congruence. subst w1'.
  cbn [forallb]. rewrite Hcan0. cbn [andb].
  apply forallb_forall. intros e He.
  rewrite <- (can_convert_files w w1 e).
  - revert e He. apply forallb_forall. apply (IH w1 w'); [|exact Hrun].
    intros a b Ha Hb. apply Hsep; simpl; auto.
  - destruct Hf1 as [[_ ->]|(c & html & _ & _ & ->)]; [reflexivity|].
    apply lookup_insert_ne. intros Heq. apply (Hsep e e0); simpl; auto.
  - exact Hu1.
Qed.

(** The page of every present source is there after the loop. *)
Lemma for_each_pages (entries : list (str * str)) : forall w w',
  List.NoDup entries ->
  (forall e e', In e entries -> In e' entries ->
     fst e <> in_docs (html_filename_of (fst e'))) ->
  (forall e e', In e entries -> In e' entries ->
     in_docs (html_filename_of (fst e)) = in_docs (html_filename_of (fst e')) ->
     e = e') ->
  for_each entries w = Ret w' ->
  forall e content,
    In e entries -> files w !! fst e = Some (Text content) ->
    exists html,
      markdown_to_html_simple content (snd e) = Ret html /\
      files w' !! in_docs (html_filename_of (fst e)) = Some (Text html).
Proof.
  induction entries as [|e0 entries IH]; intros w w' Hnd Hsep Hout Hrun e content He Hc;
    [contradiction|].
  apply List.NoDup_cons_iff in Hnd as [Hnotin Hnd].
  pose proof (for_each_returns_inv (e0 :: entries) w w' Hsep Hrun) as Hcan.
  cbn [forallb] in Hcan. apply andb_true_iff in Hcan as [Hcan0 Hcan].
  destruct (convert_file_spec w e0 Hcan0) as (w1 & Hrun1 & _ & Hu1 & _ & Hf1).
  cbn [for_each] in Hrun. rewrite Hrun1 in Hrun. cbn [bind] in Hrun.
  assert (Hsep' : forall a b, In a entries -> In b entries ->
             fst a <> in_docs (html_filename_of (fst b))).
  { intros a b Ha Hb. apply Hsep; simpl; auto. }
  assert (Hsame : forall e', In e' (e0 :: entries) ->
             files w1 !! fst e' = files w !! fst e').
  { intros e' He'.
    destruct Hf1 as [[_ ->]|(c0 & h0 & _ & _ & ->)]; [reflexivity|].
    apply lookup_insert_ne. intros Heq.
    apply (Hsep e' e0); simpl; auto. }
  destruct He as [<-|He].
  - destruct Hf1 as [[Hnone _]|(c0 & h0 & Hc0 & Hh0 & Hw1)]; [congruence|].
    assert (c0 = content) by congruence. subst c0.
    exists h0. split; [exact Hh0|].
    destruct (for_each_spec entries w1 Hsep'
                (for_each_returns_inv entries w1 w' Hsep' Hrun))
      as (w2 & Hrun2 & _ & _ & _ & Hkeep).
    assert (w2 = w') by congruence. subst w2.
    rewrite Hkeep.
    + rewrite Hw1. apply lookup_insert_eq.
    + intros e' He' _ Heq. apply Hnotin.
      rewrite (Hout e0 e'); simpl; auto.
  - apply (IH w1 w'); try assumption.
    + intros a b Ha Hb. apply Hout; simpl; auto.
    + rewrite Hsame by (simpl; auto). exact Hc.
Qed.

Lemma files_to_convert_NoDup : List.NoDup files_to_convert.
Proof.
  unfold files_to_convert.
  repeat (apply List.NoDup_cons; [simpl; intros H;
    repeat (destruct H as [H|H]; [vm_compute in H; discriminate H|]);
    contradiction|]).
  apply List.NoDup_nil.
Qed.

(** A run that returns, as a whole. *)
Lemma main_spec (w w' : world) :
  main w = Ret w' ->
  convertible w = true /\
  dirs w' = {[ docs_dir ]} ∪ dirs w /\
  unwritable w' = unwritable w /\
  (forall e content,
     In e files_to_convert -> files w !! fst e = Some (Text content) ->
     exists html,
       markdown_to_html_simple content (snd e) = Ret html /\
       files w' !! in_docs (html_filename_of (fst e)) = Some (Text html)) /\
  (forall k,
     (forall e, In e files_to_convert -> is_Some (files w !! fst e) ->
        k <> in_docs (html_filename_of (fst e))) ->
     files w' !! k = files w !! k).
Proof.
  unfold main. intros Hrun.
  pose proof (for_each_returns_inv files_to_convert (mkdir_exist_ok docs_dir w) w'
                sources_apart Hrun) as Hcan.
  destruct (for_each_spec files_to_convert (mkdir_exist_ok docs_dir w)
              sources_apart Hcan)
    as (w2 & Hrun2 & Hd & Hu & _ & Hkeep).
  assert (w2 = w') by congruence. subst w2.
  split; [exact Hcan|]. split; [exact Hd|]. split; [exact Hu|]. split.
  - intros e content He Hc.
    apply (for_each_pages files_to_convert (mkdir_exist_ok docs_dir w) w'
             files_to_convert_NoDup sources_apart outputs_apart Hrun e content He Hc).
  - intros k Hk. rewrite Hkeep; [reflexivity|].
    intros e He Hex. apply Hk; [exact He|].
    unfold path_exists in Hex. simpl in Hex.
    now apply bool_decide_eq_true in Hex.
Qed.

(** In a run that returns, each present source was text. *)
Lemma convertible_present (w : world) (e : str * str) (n : node) :
  convertible w = true -> In e files_to_convert ->
  files w !! fst e = Some n -> exists content, n = Text content.
Proof.
  intros Hcan He Hn.
  pose proof (proj1 (forallb_forall _ _) Hcan e He) as H.
  unfold can_convert in H. rewrite Hn in H.
  destruct n; [eauto|discriminate..].
Qed.

(** X6: after a run that returns, each of the four sources that was
    present was a text, and its page is in the output directory under
    its output name: the conversion of the source's content with the
    title of the pair; every other path, the sources among them, holds
    what it held before. *)
Theorem main_writes_pages (w w' : world) :
  main w = Ret w' ->
  (forall filename title n,
     In (filename, title) files_to_convert ->
     files w !! filename = Some n ->
     exists content html,
       n = Text content /\
       markdown_to_html_simple content title = Ret html /\
       files w' !! in_docs (html_filename_of filename) = Some (Text html)) /\
  (forall k,
     (forall e, In e files_to_convert ->
        k <> in_docs (html_filename_of (fst e))) ->
     files w' !! k = files w !! k) /\
  (forall e, In e files_to_convert -> files w' !! fst e = files w !! fst e).
Proof.
  intros Hrun.
  destruct (main_spec w w' Hrun) as (Hcan & _ & _ & Hpages & Hkeep).
  split; [|split].
  - intros filename title n Hin Hn.
    destruct (convertible_present w (filename, title) n Hcan Hin Hn) as [content ->].
    destruct (Hpages (filename, title) content Hin Hn) as (html & Hh & Hf).
    exists content, html. auto.
  - intros k Hk. apply Hkeep. intros e He _. now apply Hk.
  - intros e He. apply Hkeep. intros e' He' _. now apply sources_apart.
Qed.

Lemma main_writes_pages_witness :
  main license_only = Ret license_only_done /\
  exists content html,
    Text (lit "# Grant" ++ [nl] ++ lit "You may use this software.") = Text content /\
    markdown_to_html_simple content (lit "License") = Ret html /\
    files license_only_done !! in_docs (html_filename_of (lit "LICENSE"))
    = Some (Text html).
Proof.
  split; [vm_compute; reflexivity|].
  apply (proj1 (main_writes_pages license_only license_only_done
                  ltac:(vm_compute; reflexivity))
           (lit "LICENSE") (lit "License")).
  - right. right. left. reflexivity.
  - reflexivity.
Defined.

(** X7: after a run that returns, a second run returns as well and
    changes nothing: it writes the same pages again and leaves the same
    directories. *)
Theorem main_twice (w w1 : world) :
  main w = Ret w1 ->
  exists w2,
    main w1 = Ret w2 /\ files w2 = files w1 /\ dirs w2 = dirs w1.
Proof.
  intros Hrun1.
  destruct (main_spec w w1 Hrun1) as (Hcan & Hd1 & Hu1 & Hpages1 & Hkeep1).
  assert (Hsrc : forall e, In e files_to_convert ->
             files w1 !! fst e = files w !! fst e).
  { intros e He. apply Hkeep1. intros e' He' _. now apply sources_apart. }
  assert (Hcan1 : convertible w1 = true).
  { apply forallb_forall. intros e He.
    rewrite (can_convert_files w w1 e (Hsrc e He) Hu1).
    revert e He. now apply forallb_forall. }
  destruct (for_each_spec files_to_convert (mkdir_exist_ok docs_dir w1)
              sources_apart Hcan1) as (w2 & Hrun2 & _).
  change (main w1 = Ret w2) in Hrun2.
  destruct (main_spec w1 w2 Hrun2) as (_ & Hd2 & _ & Hpages2 & Hkeep2).
  exists w2. split; [exact Hrun2|]. split.
  - apply map_eq. intros k.
    destruct (decide (Exists (fun e => k = in_docs (html_filename_of (fst e)))
                        files_to_convert)) as [Hex|Hno].
    + apply List.Exists_exists in Hex as (e & He & ->).
      destruct (files w !! fst e) as [n|] eqn:Ec.
      * destruct (convertible_present w e n Hcan He Ec) as [content ->].
        destruct (Hpages1 e content He Ec) as (h1 & Hh1 & ->).
        rewrite <- (Hsrc e He) in Ec.
        destruct (Hpages2 e content He Ec) as (h2 & Hh2 & ->).
        congruence.
      * apply Hkeep2. intros e' He' Hsome Heq.
        apply outputs_apart in Heq; [|assumption..]. subst e'.
        rewrite (Hsrc e He), Ec in Hsome. now destruct Hsome.
    + apply Hkeep2. intros e He _ Heq. apply Hno.
      apply List.Exists_exists. eauto.
  - rewrite Hd2, Hd1. rewrite (assoc_L (∪)). now rewrite union_idemp_L.
Qed.

Lemma main_twice_witness :
  main license_only = Ret license_only_done /\
  exists w2,
    main license_only_done = Ret w2 /\
    files w2 = files license_only_done /\ dirs w2 = dirs license_only_done.
Proof.
  split; [vm_compute; reflexivity|].
  exact (main_twice license_only license_only_done ltac:(vm_compute; reflexivity)).
Defined.

(** ** Headers *)

Lemma split_one_line (s : str) : forallb one_line (split nl s) = true.
Proof.
  induction s as [|c s IH]; [reflexivity|]. simpl split.
  destruct (char_eqb c nl) eqn:E; [exact IH|].
  pose proof (split_nonempty nl s) as Hne.
  destruct (split nl s) as [|l ls]; [congruence|].
  simpl in IH |- *. now rewrite E.
Qed.

Lemma convert_line_one_line (marker tag line : str) :
  one_line tag = true -> one_line line = true ->
  one_line (convert_line marker tag line) = true.
Proof.
  intros Ht Hl. unfold convert_line.
  destruct (strip_prefix marker line) as [[|c rest]|] eqn:E; try exact Hl.
  apply strip_prefix_Some in E. subst line.
  rewrite one_line_app in Hl. apply andb_true_iff in Hl as [_ Hl].
  change (c :: rest ++ lit "</" ++ tag ++ lit ">")
    with ((c :: rest) ++ lit "</" ++ tag ++ lit ">").
  rewrite !one_line_app, Ht, Hl. reflexivity.
Qed.

Lemma forallb_mapped {A B : Type} (P : B -> bool) (f : A -> B) (l : list A) :
  forallb P (map f l) = forallb (fun x => P (f x)) l.
Proof. induction l as [|x l IH]; simpl; congruence. Qed.

Lemma convert_lines_split (marker tag s : str) :
  one_line tag = true ->
  split nl (convert_lines marker tag s) = map (convert_line marker tag) (split nl s).
Proof.
  intros Ht. unfold convert_lines. apply split_join.
  - pose proof (split_nonempty nl s). destruct (split nl s); [congruence|discriminate].
  - rewrite forallb_mapped. generalize (split_one_line s).
    apply forallb_weaken. intros l Hl. now apply convert_line_one_line.
Qed.

Lemma heading_convert_line (line : str) :
  convert_line (lit "### ") (lit "h3")
    (convert_line (lit "## ") (lit "h2") (convert_line (lit "# ") (lit "h1") line))
  = heading line.
Proof.
  unfold heading.
  unfold convert_line at 3.
  destruct (strip_prefix (lit "# ") line) as [[|c rest]|]; try reflexivity;
    unfold convert_line at 2;
    (destruct (strip_prefix (lit "## ") line) as [[|c' rest']|]; try reflexivity);
    unfold convert_line;
    (destruct (strip_prefix (lit "### ") line) as [[|c'' rest'']|]; reflexivity).
Qed.

Lemma convert_lines_headers (s : str) :
  convert_lines (lit "### ") (lit "h3")
    (convert_lines (lit "## ") (lit "h2") (convert_lines (lit "# ") (lit "h1") s))
  = join [nl] (map heading (split nl s)).
Proof.
  unfold convert_lines at 1. rewrite convert_lines_split by reflexivity.
  rewrite convert_lines_split by reflexivity.
  rewrite !map_map. f_equal.
  apply map_ext. intros l. apply heading_convert_line.
Qed.

(** X8: the three header substitutions together give each line one
    heading tag at most, by the marker the line itself starts with:
    a line made a level-1 heading is not looked at again as a level-2
    or level-3 heading, and [##] is not read as [#]. *)
Theorem headers_by_lines (s : str) :
  (let* s1 := Re.sub Re.multiline (line_pattern (lit "# ")) (tag_template (lit "h1")) s in
   let* s2 := Re.sub Re.multiline (line_pattern (lit "## ")) (tag_template (lit "h2")) s1 in
   Re.sub Re.multiline (line_pattern (lit "### ")) (tag_template (lit "h3")) s2)
  = Ret (join [nl] (map heading (split nl s))).
Proof.
  rewrite (sub_line_pattern (lit "# ") (lit "h1") eq_refl). cbn [bind].
  rewrite (sub_line_pattern (lit "## ") (lit "h2") eq_refl). cbn [bind].
  rewrite (sub_line_pattern (lit "### ") (lit "h3") eq_refl).
  now rewrite convert_lines_headers.
Qed.

(** ** A text of whitespace *)

Lemma lstrip_spaces (s : str) : forallb isspace s = true -> lstrip s = [].
Proof.
  induction s as [|c s IH]; [reflexivity|]. simpl. intros H.
  apply andb_true_iff in H as [Hc H]. rewrite Hc. now apply IH.
Qed.

Lemma blank_spaces (l : str) : forallb isspace l = true -> blank l = true.
Proof.
  intros H. unfold blank, strip. now rewrite (lstrip_spaces l H).
Qed.

Lemma spaces_split (s : str) :
  forallb isspace s = true -> forallb (forallb isspace) (split nl s) = true.
Proof.
  induction s as [|c s IH]; [reflexivity|]. simpl forallb at 1. intros H.
  apply andb_true_iff in H as [Hc H]. specialize (IH H). simpl split.
  destruct (char_eqb c nl); [exact IH|].
  pose proof (split_nonempty nl s) as Hne.
  destruct (split nl s) as [|l ls]; [congruence|].
  simpl in IH |- *. now rewrite Hc.
Qed.

Lemma startswith_not_space (l p : str) :
  forallb isspace l = true ->
  match p with c :: _ => isspace c | [] => true end = false ->
  startswith l p = false.
Proof.
  intros Hl Hc. destruct p as [|c p]; [discriminate|].
  destruct l as [|x l]; [reflexivity|].
  simpl in Hl. apply andb_true_iff in Hl as [Hx _].
  unfold startswith. simpl. destruct (char_eqb c x) eqn:E; [|reflexivity].
  apply char_eqb_eq in E. congruence.
Qed.

Lemma plain_line_spaces (l : str) : forallb isspace l = true -> plain_line l = true.
Proof.
  intros H. unfold plain_line.
  rewrite !(startswith_not_space l) by (assumption || reflexivity).
  pose proof (blank_spaces l H) as Hb. unfold blank in Hb.
  destruct (strip l); [reflexivity|discriminate].
Qed.

Lemma has_list_span_spaces (s : str) :
  forallb isspace s = true -> has_list_span s = false.
Proof.
  induction s as [|c s IH]; [reflexivity|]. intros H.
  pose proof (startswith_not_space (c :: s) (lit "<li>") H eq_refl) as Hs.
  simpl in H. apply andb_true_iff in H as [_ H].
  cbn [has_list_span]. rewrite (IH H).
  apply startswith_false in Hs.
  change (strip_prefix (lit "<li>") (c :: s) = None) in Hs.
  now rewrite Hs.
Qed.

Lemma assemble_blank_lines (lines : list str) :
  forallb blank lines = true -> assemble_paragraphs lines = [].
Proof.
  intros H. unfold assemble_paragraphs.
  assert (Hfold : fold_left para_step lines ([], []) = ([], [])).
  { induction lines as [|l lines IH]; [reflexivity|].
    simpl in H. apply andb_true_iff in H as [Hl H].
    cbn [fold_left]. rewrite (para_step_blank _ _ _ Hl). now apply IH. }
  now rewrite Hfold.
Qed.

(** X9: a content of nothing but whitespace, the empty content
    included, gives the shell with an empty body. *)
Theorem whitespace_document (md_content title : str) :
  forallb isspace md_content = true ->
  markdown_to_html_simple md_content title = Ret (shell_head title ++ shell_foot).
Proof.
  intros H. unfold markdown_to_html_simple.
  pose proof (spaces_split md_content H) as Hlines.
  rewrite convert_inline_plain.
  - cbn [bind]. rewrite assemble_blank_lines.
    + simpl join. now rewrite app_nil_r.
    + revert Hlines. apply forallb_weaken. apply blank_spaces.
  - unfold no_markdown. apply andb_true_iff. split.
    + revert Hlines. apply forallb_weaken. apply plain_line_spaces.
    + revert H. apply forallb_weaken. intros c Hc.
      apply negb_true_iff, char_eqb_neq. intros ->. discriminate.
  - now apply has_list_span_spaces.
Qed.

Lemma whitespace_document_witness :
  forallb isspace (lit " " ++ [nl; 9%N; nl; 160%N]) = true /\
  markdown_to_html_simple (lit " " ++ [nl; 9%N; nl; 160%N]) (lit "T")
  = Ret (shell_head (lit "T") ++ shell_foot).
Proof.
  split; [reflexivity|].
  exact (whitespace_document (lit " " ++ [nl; 9%N; nl; 160%N]) (lit "T") eq_refl).
Defined.

(** ** What paragraph assembly emits *)

Lemma flush_emitted (lines ps cur : list str) :
  Forall (emitted_element lines) ps ->
  Forall (buffered_piece lines) cur ->
  Forall (emitted_element lines) (flush ps cur).
Proof.
  intros Hps Hcur. destruct cur as [|t cur]; [exact Hps|].
  unfold flush. apply Forall_app. split; [exact Hps|].
  constructor; [|constructor]. right.
  exists (t :: cur). split; [discriminate|]. split; [exact Hcur|reflexivity].
Qed.

Lemma str_eqb_nil (s : str) : str_eqb s [] = false -> s <> [].
Proof. destruct s; [discriminate|discriminate]. Qed.

(** The loop keeps its two lists as they should be. *)
Lemma para_step_emitted (lines : list str) (ps cur : list str) (l : str) :
  In l lines ->
  Forall (emitted_element lines) ps ->
  Forall (buffered_piece lines) cur ->
  Forall (emitted_element lines) (fst (para_step (ps, cur) l)) /\
  Forall (buffered_piece lines) (snd (para_step (ps, cur) l)).
Proof.
  intros Hl Hps Hcur. unfold para_step.
  destruct (str_eqb (strip l) []) eqn:Eb; cbn [fst snd].
  - split; [now apply flush_emitted|constructor].
  - destruct (startswith (strip l) (lit "<")) eqn:Eh; cbn [negb fst snd].
    + split; [|constructor].
      apply Forall_app. split; [now apply flush_emitted|].
      constructor; [|constructor]. left. split; [exact Hl|exact Eh].
    + split; [exact Hps|].
      apply Forall_app. split; [exact Hcur|].
      constructor; [|constructor]. split; [now apply str_eqb_nil|eauto].
Qed.

Lemma fold_para_step_emitted (lines : list str) : forall ls ps cur,
  (forall l, In l ls -> In l lines) ->
  Forall (emitted_element lines) ps ->
  Forall (buffered_piece lines) cur ->
  Forall (emitted_element lines) (fst (fold_left para_step ls (ps, cur))) /\
  Forall (buffered_piece lines) (snd (fold_left para_step ls (ps, cur))).
Proof.
  induction ls as [|l ls IH]; intros ps cur Hin Hps Hcur; [now split|].
  cbn [fold_left].
  destruct (para_step_emitted lines ps cur l) as [H1 H2];
    [apply Hin; now left|assumption..|].
  destruct (para_step (ps, cur) l) as [ps' cur'].
  apply IH; [|assumption..]. intros x Hx. apply Hin. now right.
Qed.

(** X10: each thing in the body is either a line of the text that
    starts with [<] after stripping, as it was, or a paragraph of at
    least one piece, where each piece is a line of the text, stripped,
    and not empty.  So no empty paragraph is emitted, and no text is
    made up. *)
Theorem assembled_elements (lines : list str) :
  Forall (emitted_element lines) (assemble_paragraphs lines).
Proof.
  unfold assemble_paragraphs.
  destruct (fold_para_step_emitted lines lines [] []) as [H1 H2];
    [auto|constructor|constructor|].
  destruct (fold_left para_step lines ([], [])) as [ps cur].
  now apply flush_emitted.
Qed.

(** ** A list of items *)

Lemma lstrip_snoc (s : str) (c : char) :
  isspace c = false -> exists l', lstrip (s ++ [c]) = l' ++ [c].
Proof.
  intros Hc. induction s as [|x s IH].
  - exists []. simpl. now rewrite Hc.
  - simpl. destruct (isspace x); [exact IH|]. now exists (x :: s).
Qed.

(** Stripping keeps a first character that is not whitespace. *)
Lemma strip_keeps_head (c : char) (rest : str) :
  isspace c = false -> exists t, strip (c :: rest) = c :: t.
Proof.
  intros Hc. unfold strip, rstrip. cbn [lstrip]. rewrite Hc.
  cbn [rev]. destruct (lstrip_snoc (rev rest) c Hc) as [l' ->].
  exists (rev l'). now rewrite rev_app_distr.
Qed.

Lemma html_line_lt (rest : str) : html_line (60%N :: rest) = true.
Proof.
  unfold html_line.
  destruct (strip_keeps_head 60%N rest eq_refl) as [t Ht].
  exact (f_equal (fun s => startswith s (lit "<")) Ht).
Qed.

Lemma startswith_lt (s : str) :
  startswith s (lit "<") = true -> exists rest, s = 60%N :: rest.
Proof. intros H. apply startswith_true in H as [post ->]. now exists post. Qed.

(** A text in which every line starts with [<] has only lines that
    paragraph assembly emits as they are. *)
Lemma html_lines_split (s : str) :
  breaks_before_lt s = true ->
  forallb html_line (tl (split nl s)) = true /\
  (startswith s (lit "<") = true -> html_line (hd [] (split nl s)) = true).
Proof.
  induction s as [|c s IH]; intros H.
  - split; [reflexivity|discriminate].
  - cbn [breaks_before_lt] in H. apply andb_true_iff in H as [Hc H].
    destruct (IH H) as [IHt IHh]. cbn [split].
    pose proof (split_nonempty nl s) as Hne.
    destruct (char_eqb c nl) eqn:E.
    + cbn [tl hd]. split.
      * destruct (split nl s) as [|l ls]; [congruence|].
        cbn [forallb]. cbn [tl hd] in IHt, IHh. now rewrite (IHh Hc), IHt.
      * intros Hs. apply startswith_lt in Hs as [rest Hs].
        inversion Hs; subst. discriminate.
    + destruct (split nl s) as [|l ls]; [congruence|].
      cbn [tl hd] in *. split; [exact IHt|].
      intros Hs. apply startswith_lt in Hs as [rest Hs].
      inversion Hs; subst. apply html_line_lt.
Qed.

Lemma html_lines (s : str) :
  startswith s (lit "<") = true -> breaks_before_lt s = true ->
  forallb html_line (split nl s) = true.
Proof.
  intros Hs Hb. destruct (html_lines_split s Hb) as [Ht Hh].
  pose proof (split_nonempty nl s) as Hne.
  destruct (split nl s) as [|l ls]; [congruence|].
  cbn [forallb]. cbn [tl hd] in Ht, Hh. now rewrite (Hh Hs), Ht.
Qed.

Lemma breaks_one_line (x s : str) :
  one_line x = true -> breaks_before_lt (x ++ s) = breaks_before_lt s.
Proof.
  induction x as [|c x IH]; [reflexivity|]. intros H.
  simpl in H. apply andb_true_iff in H as [Hc H]. apply negb_true_iff in Hc.
  simpl app. cbn [breaks_before_lt]. rewrite Hc. now apply IH.
Qed.

Lemma item_tag_one_line (x : str) : one_line x = true -> one_line (item_tag x) = true.
Proof. intros H. unfold item_tag. now rewrite !one_line_app, H. Qed.

Lemma breaks_item_tags (tail : str) : forall items,
  items <> [] -> forallb one_line items = true ->
  breaks_before_lt (join [nl] (map item_tag items) ++ tail)
  = breaks_before_lt tail.
Proof.
  induction items as [|x items IH]; [congruence|]. intros _ H.
  simpl in H. apply andb_true_iff in H as [Hx H].
  destruct items as [|y items].
  - simpl. now rewrite breaks_one_line by now apply item_tag_one_line.
  - cbn [map]. rewrite join_cons by discriminate.
    rewrite <- !app_assoc.
    rewrite breaks_one_line by now apply item_tag_one_line.
    cbn [app breaks_before_lt]. rewrite char_eqb_refl.
    change (item_tag y :: map item_tag items) with (map item_tag (y :: items)).
    rewrite (IH ltac:(discriminate) H).
    replace (startswith (join [nl] (map item_tag (y :: items)) ++ tail) (lit "<"))
      with true; [reflexivity|].
    symmetry. cbn [map]. destruct (map item_tag items); reflexivity.
Qed.

(** Lines that all start with [<] are the body as they are. *)
Lemma assemble_html_lines (lines : list str) :
  forallb html_line lines = true -> assemble_paragraphs lines = lines.
Proof.
  intros H. unfold assemble_paragraphs.
  assert (Hfold : forall ps, fold_left para_step lines (ps, []) = (ps ++ lines, [])).
  { induction lines as [|l lines IH]; intros ps; [now rewrite app_nil_r|].
    simpl in H. apply andb_true_iff in H as [Hl H].
    cbn [fold_left]. unfold para_step at 2. unfold html_line in Hl.
    rewrite (startswith_nonempty _ (lit "<")) by (assumption || discriminate).
    rewrite Hl. cbn [negb flush]. rewrite (IH H).
    now rewrite <- app_assoc. }
  now rewrite Hfold.
Qed.

Lemma join_item_tags (xs : list str) : forall x,
  exists b, join [nl] (map item_tag (x :: xs)) = li_open ++ b ++ li_close.
Proof.
  induction xs as [|y xs IH]; intros x.
  - now exists x.
  - destruct (IH y) as [b Hb]. cbn [map] in Hb |- *.
    rewrite join_cons by discriminate. rewrite Hb.
    exists (x ++ li_close ++ [nl] ++ li_open ++ b).
    unfold item_tag. fold li_open li_close. now rewrite <- !app_assoc.
Qed.

Lemma inline_text_parts (x : str) :
  inline_text x = true -> one_line x = true /\ x <> [] /\ no_star x = true.
Proof.
  unfold inline_text. intros H.
  apply andb_true_iff in H as [H H3]. apply andb_true_iff in H as [H1 H2].
  repeat split; try assumption.
  intros ->. discriminate.
Qed.

Lemma no_star_join (sep : str) (parts : list str) :
  no_star sep = true -> forallb no_star parts = true ->
  no_star (join sep parts) = true.
Proof.
  intros Hs. induction parts as [|p ps IH]; [reflexivity|]. intros H.
  simpl in H. apply andb_true_iff in H as [Hp H].
  destruct ps as [|q ps]; [exact Hp|].
  rewrite join_cons by discriminate. unfold no_star in *.
  rewrite !forallb_app, Hp, Hs. now rewrite (IH H).
Qed.

Lemma convert_line_item (x : str) :
  x <> [] -> convert_line (lit "- ") (lit "li") (item_line x) = item_tag x.
Proof.
  intros Hx. unfold convert_line, item_line. rewrite strip_prefix_app.
  destruct x as [|c rest]; [congruence|]. reflexivity.
Qed.

(** The substitutions on a text of list items. *)
Lemma convert_inline_items (items : list str) :
  items <> [] -> forallb inline_text items = true ->
  convert_inline (join [nl] (map item_line items))
  = Ret (lit "<ul>" ++ join [nl] (map item_tag items) ++ lit "</ul>").
Proof.
  intros Hne H.
  assert (Hparts : forall x, In x items ->
             one_line x = true /\ x <> [] /\ no_star x = true).
  { intros x Hx. apply inline_text_parts.
    revert x Hx. now apply forallb_forall. }
  assert (Hsplit : split nl (join [nl] (map item_line items)) = map item_line items).
  { apply split_join; [destruct items; [congruence|discriminate]|].
    rewrite forallb_mapped. apply forallb_forall. intros x Hx.
    unfold item_line. rewrite one_line_app. now rewrite (proj1 (Hparts x Hx)). }
  assert (Hstar : forallb (fun c => negb (char_eqb c star_sign))
                    (join [nl] (map item_line items)) = true).
  { apply (no_star_join [nl]); [reflexivity|].
    rewrite forallb_mapped. apply forallb_forall. intros x Hx.
    pose proof (proj2 (proj2 (Hparts x Hx))) as Hn.
    unfold item_line, no_star in *. rewrite forallb_app. now rewrite Hn. }
  unfold convert_inline.
  rewrite sub_line_pattern_plain; [cbn [bind]|reflexivity|].
  2: { rewrite Hsplit, forallb_mapped. now apply forallb_forall. }
  rewrite sub_line_pattern_plain; [cbn [bind]|reflexivity|].
  2: { rewrite Hsplit, forallb_mapped. now apply forallb_forall. }
  rewrite sub_line_pattern_plain; [cbn [bind]|reflexivity|].
  2: { rewrite Hsplit, forallb_mapped. now apply forallb_forall. }
  rewrite sub_span_pattern_plain; [cbn [bind]|reflexivity|exact Hstar].
  rewrite sub_span_pattern_plain; [cbn [bind]|reflexivity|exact Hstar].
  rewrite (sub_line_pattern (lit "- ") (lit "li") eq_refl). cbn [bind].
  unfold convert_lines. rewrite Hsplit, map_map.
  rewrite (map_ext_in _ item_tag)
    by (intros x Hx; apply convert_line_item; now apply (Hparts x Hx)).
  destruct items as [|x xs]; [congruence|].
  destruct (join_item_tags xs x) as [b Hb]. rewrite Hb.
  pose proof (sub_list_pattern_span [] b [] eq_refl eq_refl) as Hsub.
  rewrite !app_nil_r in Hsub. exact Hsub.
Qed.

(** X11: a content of list items only, each [- ] followed by a text
    on one line that is not empty and has no asterisk, becomes one
    unordered list: the items in their tags, one to a line, between one
    opening and one closing list tag, and no paragraph. *)
Theorem item_list_document (first : str) (others : list str) (title : str) :
  forallb inline_text (first :: others) = true ->
  markdown_to_html_simple (join [nl] (map item_line (first :: others))) title
  = Ret (shell_head title
         ++ (lit "<ul>" ++ join [nl] (map item_tag (first :: others)) ++ lit "</ul>")
         ++ shell_foot).
Proof.
  intros H. unfold markdown_to_html_simple.
  rewrite (convert_inline_items (first :: others) ltac:(discriminate) H).
  cbn [bind]. rewrite assemble_html_lines.
  - rewrite join_split. now rewrite <- !app_assoc.
  - apply html_lines; [reflexivity|].
    change (lit "<ul>" ++ join [nl] (map item_tag (first :: others)) ++ lit "</ul>")
      with (lit "<ul>" ++ (join [nl] (map item_tag (first :: others)) ++ lit "</ul>")).
    rewrite breaks_one_line by reflexivity.
    rewrite breaks_item_tags; [reflexivity|discriminate|].
    revert H. apply forallb_weaken. intros x Hx.
    now apply inline_text_parts in Hx.
Qed.

Lemma item_list_document_witness :
  forallb inline_text [lit "use <li> freely"; lit "b"; lit " c "] = true /\
  markdown_to_html_simple
    (join [nl] (map item_line [lit "use <li> freely"; lit "b"; lit " c "])) (lit "T")
  = Ret (shell_head (lit "T")
         ++ (lit "<ul>"
             ++ join [nl] (map item_tag [lit "use <li> freely"; lit "b"; lit " c "])
             ++ lit "</ul>")
         ++ shell_foot).
Proof.
  split; [reflexivity|].
  exact (item_list_document (lit "use <li> freely") [lit "b"; lit " c "] (lit "T")
           eq_refl).
Defined.

(** ** Emphasis *)

(** A lazy [.+?] stops at the first place where the rest of the
    pattern matches. *)
Lemma star_lazy_to (ok : char -> bool) (K : Re.cont) (g : Re.groups)
    (tail : str) (res : Re.found) : forall x prev,
  forallb ok x = true ->
  (forall u v p, x = u ++ v -> v <> [] -> K p (v ++ tail) g = None) ->
  K (Re.last_seen prev x) tail g = Some res ->
  Re.star_lazy ok K prev (x ++ tail) g = Some res.
Proof.
  induction x as [|c x IH]; intros prev Hok Hno HK.
  - simpl in HK |- *. destruct tail; simpl; now rewrite HK.
  - simpl in Hok. apply andb_true_iff in Hok as [Hc Hok].
    simpl app. cbn [Re.star_lazy].
    pose proof (Hno [] (c :: x) prev eq_refl ltac:(discriminate)) as H0.
    simpl app in H0. rewrite H0.
    rewrite Hc. apply IH; [exact Hok| |exact HK].
    intros u v p -> Hv. now apply (Hno (c :: u) v).
Qed.

Lemma strip_prefix_star (d' v rest : str) (y : char) :
  char_eqb y star_sign = false ->
  strip_prefix (star_sign :: d') (y :: v ++ rest) = None.
Proof.
  intros Hy. simpl. replace (char_eqb star_sign y) with false; [reflexivity|].
  symmetry. apply char_eqb_neq. apply char_eqb_neq in Hy. congruence.
Qed.

Lemma no_star_head (u v : str) (y : char) (s : str) :
  no_star s = true -> s = u ++ y :: v -> char_eqb y star_sign = false.
Proof.
  intros H ->. unfold no_star in H. rewrite forallb_app in H.
  apply andb_true_iff in H as [_ H]. simpl in H.
  apply andb_true_iff in H as [H _]. now apply negb_true_iff.
Qed.

(** The pattern on a span: delimiter, text, delimiter. *)
Lemma span_pattern_match (d' : str) (c : char) (x post : str)
    (k : Re.cont) prev g res :
  one_line (c :: x) = true -> no_star (c :: x) = true ->
  k (Re.last_seen (Re.last_seen (Some c) x) (star_sign :: d')) post
    ((1, c :: x) :: g) = Some res ->
  Re.rmatch Re.no_flags (span_pattern (star_sign :: d')) k prev
    ((star_sign :: d') ++ (c :: x) ++ (star_sign :: d') ++ post) g
  = Some res.
Proof.
  intros Hone Hstar Hk. unfold span_pattern. cbn [Re.rmatch].
  rewrite strip_prefix_app.
  simpl in Hone. apply andb_true_iff in Hone as [Hc Hone].
  cbn [app]. unfold Re.any_ok at 1. cbn [Re.DOTALL Re.no_flags orb].
  rewrite Hc. cbn [Re.star].
  change (x ++ star_sign :: d' ++ post) with (x ++ (star_sign :: d') ++ post).
  apply star_lazy_to.
  - revert Hone. apply forallb_weaken. intros y Hy. unfold Re.any_ok. exact Hy.
  - intros u v p Hx Hv. destruct v as [|y v]; [congruence|].
    simpl app. rewrite strip_prefix_star; [reflexivity|].
    apply (no_star_head (c :: u) v y (c :: x) Hstar). now rewrite Hx.
  - rewrite strip_prefix_app.
    change (c :: x ++ (star_sign :: d') ++ post)
      with ((c :: x) ++ (star_sign :: d') ++ post).
    replace (List.length ((c :: x) ++ (star_sign :: d') ++ post)
             - List.length ((star_sign :: d') ++ post))
      with (List.length (c :: x) + 0) by (rewrite !length_app; lia).
    rewrite firstn_app_2. cbn [firstn]. rewrite app_nil_r. exact Hk.
Qed.

(** Where the delimiter does not occur, nothing is replaced. *)
Lemma sub_span_absent (d tag s : str) :
  contains s d = false ->
  Re.sub Re.no_flags (span_pattern d) (tag_template tag) s = Ret s.
Proof.
  intros H. unfold Re.sub. simpl Re.check_template. cbn [bind].
  apply sub_loop_no_match; [lia|].
  intros u v k p g ->. unfold span_pattern. cbn [Re.rmatch].
  now rewrite (startswith_false _ _
                 (contains_startswith _ _ (contains_app_false u v d H))).
Qed.

(** One span in a text that has no other asterisk. *)
Lemma sub_single_span (d' tag pre x post : str) :
  no_star pre = true -> inline_text x = true -> no_star post = true ->
  Re.sub Re.no_flags (span_pattern (star_sign :: d')) (tag_template tag)
    (pre ++ (star_sign :: d') ++ x ++ (star_sign :: d') ++ post)
  = Ret (pre ++ (lit "<" ++ tag ++ lit ">") ++ x
         ++ (lit "</" ++ tag ++ lit ">") ++ post).
Proof.
  intros Hpre Hx Hpost.
  apply inline_text_parts in Hx as (Hone & Hne & Hstar).
  destruct x as [|c x]; [congruence|].
  unfold Re.sub. simpl Re.check_template. cbn [bind].
  set (R := (star_sign :: d') ++ (c :: x) ++ (star_sign :: d') ++ post).
  replace (2 * List.length (pre ++ R) + 2)
    with (List.length pre + S (List.length pre + 2 * List.length R + 1))
    by (rewrite length_app; lia).
  rewrite sub_loop_copy.
  - cbn [Re.sub_loop]. unfold R at 2.
    rewrite (span_pattern_match d' c x post _ _ []
               ([(1, c :: x)],
                Re.last_seen (Re.last_seen (Some c) x) (star_sign :: d'), post)
               Hone Hstar eq_refl).
    replace (List.length post =? List.length R) with false
      by (symmetry; apply Nat.eqb_neq; unfold R;
          rewrite !length_app; simpl; lia).
    rewrite sub_loop_no_match.
    + cbn [bind]. unfold tag_template.
      cbn [Re.expand Re.group Nat.eqb]. do 2 f_equal.
      now rewrite app_nil_r, <- !app_assoc.
    + unfold R. rewrite !length_app. lia.
    + intros u v k p g Huv. unfold span_pattern. cbn [Re.rmatch].
      destruct v as [|y v]; [reflexivity|].
      rewrite <- (app_nil_r v). rewrite strip_prefix_star; [reflexivity|].
      now apply (no_star_head u v y post Hpost).
  - intros u v k p g Huv Hv. unfold span_pattern. cbn [Re.rmatch].
    destruct v as [|y v]; [congruence|].
    simpl app. rewrite strip_prefix_star; [reflexivity|].
    now apply (no_star_head u v y pre Hpre).
Qed.

Lemma no_star_contains (s d' : str) :
  no_star s = true -> contains s (star_sign :: d') = false.
Proof.
  induction s as [|y s IH]; intros H; [reflexivity|].
  pose proof (no_star_head [] s y (y :: s) H eq_refl) as Hy.
  unfold no_star in H. simpl in H. apply andb_true_iff in H as [_ H].
  cbn [contains]. rewrite (IH H), orb_false_r.
  unfold startswith. rewrite <- (app_nil_r s).
  now rewrite strip_prefix_star.
Qed.

(** A single asterisk between texts without asterisks is not a
    double one. *)
Lemma single_star_contains (pre y : str) :
  no_star pre = true ->
  startswith y [star_sign] = false ->
  contains y (lit "**") = false ->
  contains (pre ++ star_sign :: y) (lit "**") = false.
Proof.
  intros Hpre Hy Hc. induction pre as [|c pre IH].
  - simpl app. cbn [contains]. rewrite Hc, orb_false_r.
    unfold startswith in *.
    change (strip_prefix (lit "**") (star_sign :: y))
      with (strip_prefix [star_sign] y).
    destruct (strip_prefix [star_sign] y); [discriminate|reflexivity].
  - pose proof (no_star_head [] pre c (c :: pre) Hpre eq_refl) as Hch.
    unfold no_star in Hpre. simpl in Hpre. apply andb_true_iff in Hpre as [_ Hpre].
    simpl app. cbn [contains]. rewrite (IH Hpre), orb_false_r.
    unfold startswith.
    change (lit "**") with (star_sign :: lit "*").
    now rewrite strip_prefix_star.
Qed.

Lemma no_star_startswith (s : str) :
  no_star s = true -> startswith s [star_sign] = false.
Proof.
  intros H. apply contains_startswith. now apply no_star_contains.
Qed.

(** X12: with no other asterisk around, [**x**] becomes a
    strong-emphasis tag around [x] and [*x*] an emphasis tag around
    [x], for a text [x] on one line, not empty, without asterisk: the
    bold substitution runs first and leaves nothing for the italic one
    in the first case, and finds nothing in the second. *)
Theorem bold_before_italic (pre x post : str) :
  no_star pre = true -> inline_text x = true -> no_star post = true ->
  (let* t := Re.sub Re.no_flags (span_pattern (lit "**")) (tag_template (lit "strong"))
               (pre ++ lit "**" ++ x ++ lit "**" ++ post) in
   Re.sub Re.no_flags (span_pattern (lit "*")) (tag_template (lit "em")) t)
  = Ret (pre ++ lit "<strong>" ++ x ++ lit "</strong>" ++ post)
  /\
  (let* t := Re.sub Re.no_flags (span_pattern (lit "**")) (tag_template (lit "strong"))
               (pre ++ lit "*" ++ x ++ lit "*" ++ post) in
   Re.sub Re.no_flags (span_pattern (lit "*")) (tag_template (lit "em")) t)
  = Ret (pre ++ lit "<em>" ++ x ++ lit "</em>" ++ post).
Proof.
  intros Hpre Hx Hpost.
  pose proof (inline_text_parts x Hx) as (Hone & Hne & Hstar).
  split.
  - pose proof (sub_single_span (lit "*") (lit "strong") pre x post Hpre Hx Hpost)
      as Hb.
    change (star_sign :: lit "*") with (lit "**") in Hb. rewrite Hb.
    cbn [bind]. apply sub_span_pattern_plain; [reflexivity|].
    fold (no_star (pre ++ (lit "<" ++ lit "strong" ++ lit ">") ++ x
                   ++ (lit "</" ++ lit "strong" ++ lit ">") ++ post)).
    unfold no_star in *. rewrite !forallb_app, Hpre, Hstar, Hpost. reflexivity.
  - rewrite sub_span_absent.
    + cbn [bind].
      exact (sub_single_span [] (lit "em") pre x post Hpre Hx Hpost).
    + apply single_star_contains; [exact Hpre| |].
      * destruct x as [|c x]; [congruence|].
        pose proof (no_star_head [] x c (c :: x) Hstar eq_refl) as Hc.
        unfold startswith. simpl.
        replace (char_eqb star_sign c) with false; [reflexivity|].
        symmetry. apply char_eqb_neq. apply char_eqb_neq in Hc. congruence.
      * apply single_star_contains; [exact Hstar| |].
        -- now apply no_star_startswith.
        -- now apply no_star_contains.
Qed.

Lemma bold_before_italic_witness :
  no_star (lit "Read the ") = true /\ inline_text (lit "whole text") = true /\
  no_star (lit ", please.") = true /\
  (let* t := Re.sub Re.no_flags (span_pattern (lit "**")) (tag_template (lit "strong"))
               (lit "Read the " ++ lit "**" ++ lit "whole text" ++ lit "**"
                ++ lit ", please.") in
   Re.sub Re.no_flags (span_pattern (lit "*")) (tag_template (lit "em")) t)
  = Ret (lit "Read the " ++ lit "<strong>" ++ lit "whole text" ++ lit "</strong>"
         ++ lit ", please.").
Proof.
  repeat (split; [reflexivity|]).
  exact (proj1 (bold_before_italic (lit "Read the ") (lit "whole text")
                  (lit ", please.") eq_refl eq_refl eq_refl)).
Defined.

(** ** Headings and paragraphs *)

Lemma forallb_split (P : char -> bool) (s : str) :
  forallb P s = true -> forallb (forallb P) (split nl s) = true.
Proof.
  induction s as [|c s IH]; [reflexivity|]. simpl forallb at 1. intros H.
  apply andb_true_iff in H as [Hc H]. specialize (IH H). simpl split.
  destruct (char_eqb c nl); [exact IH|].
  pose proof (split_nonempty nl s) as Hne.
  destruct (split nl s) as [|l ls]; [congruence|].
  simpl in IH |- *. now rewrite Hc.
Qed.

Lemma convert_line_no_star (marker tag line : str) :
  no_star tag = true -> no_star line = true ->
  no_star (convert_line marker tag line) = true.
Proof.
  intros Ht Hl. unfold convert_line.
  destruct (strip_prefix marker line) as [[|c rest]|] eqn:E; try exact Hl.
  apply strip_prefix_Some in E. subst line. unfold no_star in *.
  rewrite forallb_app in Hl. apply andb_true_iff in Hl as [_ Hl].
  change (c :: rest ++ lit "</" ++ tag ++ lit ">")
    with ((c :: rest) ++ lit "</" ++ tag ++ lit ">").
  rewrite !forallb_app, Ht, Hl. reflexivity.
Qed.

Lemma heading_one_line (l : str) : one_line l = true -> one_line (heading l) = true.
Proof.
  intros H. rewrite <- heading_convert_line.
  repeat (apply convert_line_one_line; [reflexivity|]). exact H.
Qed.

Lemma heading_no_star (l : str) : no_star l = true -> no_star (heading l) = true.
Proof.
  intros H. rewrite <- heading_convert_line.
  repeat (apply convert_line_no_star; [reflexivity|]). exact H.
Qed.

(** A heading does not start like a list item. *)
Lemma heading_not_item (l : str) :
  startswith l (lit "- ") = false -> startswith (heading l) (lit "- ") = false.
Proof.
  intros H. unfold heading.
  destruct (strip_prefix (lit "# ") l) as [[|c rest]|]; try reflexivity;
    (destruct (strip_prefix (lit "## ") l) as [[|c' rest']|]; try reflexivity);
    (destruct (strip_prefix (lit "### ") l) as [[|c'' rest'']|]; try reflexivity);
    exact H.
Qed.

Lemma headings_split (s : str) :
  split nl (join [nl] (map heading (split nl s))) = map heading (split nl s).
Proof.
  apply split_join.
  - pose proof (split_nonempty nl s). destruct (split nl s); [congruence|discriminate].
  - rewrite forallb_mapped. generalize (split_one_line s).
    apply forallb_weaken. apply heading_one_line.
Qed.

(** X13: a text without asterisks and without list items, whose
    lines after header conversion hold no [<li>] followed by a [</li>],
    is converted line by line: the header substitutions turn each line
    into its heading, the other substitutions do nothing, and the body
    is the paragraph assembly of those lines. *)
Theorem headings_and_text_document (md_content title : str) :
  no_star md_content = true ->
  forallb (fun l => negb (startswith l (lit "- "))) (split nl md_content) = true ->
  has_list_span (join [nl] (map heading (split nl md_content))) = false ->
  markdown_to_html_simple md_content title
  = Ret (shell_head title
         ++ join [nl] (assemble_paragraphs (map heading (split nl md_content)))
         ++ shell_foot).
Proof.
  intros Hstar Hitems Hspan. unfold markdown_to_html_simple, convert_inline.
  rewrite (sub_line_pattern (lit "# ") (lit "h1") eq_refl). cbn [bind].
  rewrite (sub_line_pattern (lit "## ") (lit "h2") eq_refl). cbn [bind].
  rewrite (sub_line_pattern (lit "### ") (lit "h3") eq_refl). cbn [bind].
  rewrite convert_lines_headers.
  assert (Hstar' : forallb (fun c => negb (char_eqb c star_sign))
                     (join [nl] (map heading (split nl md_content))) = true).
  { apply (no_star_join [nl]); [reflexivity|].
    rewrite forallb_mapped. generalize (forallb_split _ _ Hstar).
    apply forallb_weaken. apply heading_no_star. }
  rewrite sub_span_pattern_plain; [cbn [bind]|reflexivity|exact Hstar'].
  rewrite sub_span_pattern_plain; [cbn [bind]|reflexivity|exact Hstar'].
  rewrite sub_line_pattern_plain; [cbn [bind]|reflexivity|].
  2: { rewrite headings_split, forallb_mapped. revert Hitems.
       apply forallb_weaken. intros l Hl.
       apply negb_true_iff. apply heading_not_item. now apply negb_true_iff. }
  rewrite (sub_list_pattern_no_span _ Hspan). cbn [bind].
  rewrite headings_split. now rewrite <- app_assoc.
Qed.

Lemma headings_and_text_document_witness :
  no_star (lit "# Grant" ++ [nl] ++ lit "You may use this software.") = true /\
  forallb (fun l => negb (startswith l (lit "- ")))
    (split nl (lit "# Grant" ++ [nl] ++ lit "You may use this software.")) = true /\
  has_list_span
    (join [nl] (map heading
       (split nl (lit "# Grant" ++ [nl] ++ lit "You may use this software."))))
  = false /\
  markdown_to_html_simple
    (lit "# Grant" ++ [nl] ++ lit "You may use this software.") (lit "License")
  = Ret (shell_head (lit "License")
         ++ join [nl] [lit "<h1>Grant</h1>"; lit "<p>You may use this software.</p>"]
         ++ shell_foot).
Proof.
  repeat (split; [reflexivity|]).
  exact (headings_and_text_document
           (lit "# Grant" ++ [nl] ++ lit "You may use this software.") (lit "License")
           eq_refl eq_refl eq_refl).
Defined.

(** ** Emphasis and line breaks *)

Lemma sub_loop_more_fuel (fl : Re.flags) (r : Re.regex) (t : Re.template) :
  forall f f' ma prev s o,
    Re.sub_loop f fl r t ma prev s = Ret o -> f <= f' ->
    Re.sub_loop f' fl r t ma prev s = Ret o.
Proof.
  induction f as [|f IH]; intros f' ma prev s o H Hle; [discriminate|].
  destruct f' as [|f']; [lia|]. cbn [Re.sub_loop] in H |- *.
  destruct (Re.rmatch fl r (Re.accept ma s) prev s []) as [[[g p'] rest]|].
  - destruct (Re.sub_loop f fl r t (List.length rest =? List.length s) p' rest)
      as [out| |] eqn:E; try discriminate.
    rewrite (IH f' _ _ _ _ E) by lia. exact H.
  - destruct s as [|c s]; [exact H|].
    destruct (Re.sub_loop f fl r t false (Some c) s) as [out| |] eqn:E;
      try discriminate.
    rewrite (IH f' _ _ _ _ E) by lia. exact H.
Qed.

Lemma strip_prefix_with_tail (d x x' tail : str) :
  strip_prefix d x = Some x' -> strip_prefix d (x ++ tail) = Some (x' ++ tail).
Proof.
  intros H. apply strip_prefix_Some in H. subst x.
  now rewrite <- app_assoc, strip_prefix_app.
Qed.

Lemma strip_prefix_before_break (d x rest : str) :
  one_line d = true -> strip_prefix d x = None ->
  strip_prefix d (x ++ nl :: rest) = None.
Proof.
  intros Hd H. destruct (strip_prefix d (x ++ nl :: rest)) as [r|] eqn:E;
    [|reflexivity].
  destruct (strip_prefix_first_line d x (nl :: rest) r Hd eq_refl E) as (r' & Hr & _).
  congruence.
Qed.

Lemma firstn_with_tail (R x tail : str) :
  List.length x <= List.length R ->
  firstn (List.length (R ++ tail) - List.length (x ++ tail)) (R ++ tail)
  = firstn (List.length R - List.length x) R.
Proof.
  intros H. rewrite !length_app.
  replace (List.length R + List.length tail - (List.length x + List.length tail))
    with (List.length R - List.length x) by lia.
  rewrite firstn_app.
  replace (List.length R - List.length x - List.length R) with 0 by lia.
  simpl. apply app_nil_r.
Qed.

Section EmphasisLines.

Variables d tag : str.
Hypothesis d_one_line : one_line d = true.

(** The lazy [.+?] in front of a line break. *)
Lemma star_lazy_with_tail (K1 K2 : Re.cont) (g : Re.groups) (rest : str) (n : nat) :
  (forall p x, List.length x <= n ->
     K1 p (x ++ nl :: rest) g = with_tail (nl :: rest) (K2 p x g)) ->
  forall x prev, List.length x <= n ->
    Re.star_lazy (Re.any_ok Re.no_flags) K1 prev (x ++ nl :: rest) g
    = with_tail (nl :: rest) (Re.star_lazy (Re.any_ok Re.no_flags) K2 prev x g).
Proof.
  intros HK. induction x as [|c x IH]; intros prev Hn.
  - pose proof (HK prev [] Hn) as H0. simpl app in H0 |- *.
    cbn [Re.star_lazy]. rewrite H0.
    destruct (K2 prev [] g) as [[[g' p'] r']|]; reflexivity.
  - pose proof (HK prev (c :: x) Hn) as H0. simpl app in H0 |- *.
    cbn [Re.star_lazy]. rewrite H0.
    destruct (K2 prev (c :: x) g) as [[[g' p'] r']|]; [reflexivity|].
    simpl with_tail.
    destruct (Re.any_ok Re.no_flags c); [|reflexivity].
    apply IH. simpl in Hn. lia.
Qed.

(** A match attempt in a text followed by a line break is the attempt
    in the text alone: the pattern does not look past the break. *)
Lemma span_pattern_with_tail (l rest : str) (ma : bool) prev :
  Re.rmatch Re.no_flags (span_pattern d) (Re.accept ma (l ++ nl :: rest)) prev
    (l ++ nl :: rest) []
  = with_tail (nl :: rest)
      (Re.rmatch Re.no_flags (span_pattern d) (Re.accept ma l) prev l []).
Proof.
  unfold span_pattern. cbn [Re.rmatch].
  destruct (strip_prefix d l) as [r|] eqn:E.
  - rewrite (strip_prefix_with_tail d l r (nl :: rest) E).
    destruct r as [|c r]; [reflexivity|].
    simpl app. cbv beta iota.
    destruct (Re.any_ok Re.no_flags c); [|reflexivity].
    cbn [Re.star].
    apply (star_lazy_with_tail _ _ [] rest (List.length r)); [|lia].
    intros p x Hx.
    destruct (strip_prefix d x) as [x'|] eqn:Ex.
    + rewrite (strip_prefix_with_tail d x x' (nl :: rest) Ex).
      change (c :: r ++ nl :: rest) with ((c :: r) ++ nl :: rest).
      rewrite firstn_with_tail by (simpl; lia).
      assert (Hlen : (List.length (x' ++ nl :: rest) =? List.length (l ++ nl :: rest))
                     = (List.length x' =? List.length l)).
      { rewrite !length_app.
        destruct (Nat.eqb_spec (List.length x') (List.length l)) as [Heq|Hne].
        - rewrite Heq. apply Nat.eqb_refl.
        - apply Nat.eqb_neq. lia. }
      unfold Re.accept. rewrite Hlen.
      destruct (ma && (List.length x' =? List.length l)); reflexivity.
    + now rewrite (strip_prefix_before_break d x rest d_one_line Ex).
  - now rewrite (strip_prefix_before_break d l rest d_one_line E).
Qed.

(** The scan of a text that a line break and more text follow. *)
Lemma sub_loop_with_tail (rest : str) (F : nat) (o2 : str) :
  (forall prev, Re.sub_loop F Re.no_flags (span_pattern d) (tag_template tag)
                  false prev rest = Ret o2) ->
  forall f l ma prev o,
    Re.sub_loop f Re.no_flags (span_pattern d) (tag_template tag) ma prev l = Ret o ->
    Re.sub_loop (f + F) Re.no_flags (span_pattern d) (tag_template tag) ma prev
      (l ++ nl :: rest)
    = Ret (o ++ nl :: o2).
Proof.
  intros Hrest. induction f as [|f IH]; intros l ma prev o H; [discriminate|].
  simpl plus. cbn [Re.sub_loop] in H |- *.
  rewrite span_pattern_with_tail.
  destruct (Re.rmatch Re.no_flags (span_pattern d) (Re.accept ma l) prev l [])
    as [[[g p'] r]|].
  - simpl with_tail.
    destruct (Re.sub_loop f Re.no_flags (span_pattern d) (tag_template tag)
                (List.length r =? List.length l) p' r) as [out| |] eqn:E;
      cbn [bind] in H; try discriminate H.
    assert (Ho : o = Re.expand (tag_template tag) g ++ out) by congruence.
    subst o. clear H.
    assert (Hlen : (List.length (r ++ nl :: rest) =? List.length (l ++ nl :: rest))
                   = (List.length r =? List.length l)).
    { rewrite !length_app.
      destruct (Nat.eqb_spec (List.length r) (List.length l)) as [Heq|Hne].
      - rewrite Heq. apply Nat.eqb_refl.
      - apply Nat.eqb_neq. lia. }
    rewrite Hlen, (IH _ _ _ _ E). cbn [bind]. now rewrite <- app_assoc.
  - simpl with_tail. destruct l as [|c l].
    + assert (Ho : o = []) by congruence. subst o. clear H. simpl app.
      cbv beta iota.
      rewrite (sub_loop_more_fuel _ _ _ F (f + F) _ _ _ _ (Hrest (Some nl))) by lia.
      reflexivity.
    + destruct (Re.sub_loop f Re.no_flags (span_pattern d) (tag_template tag)
                  false (Some c) l) as [out| |] eqn:E;
        cbn [bind] in H; try discriminate H.
      assert (Ho : o = c :: out) by congruence. subst o. clear H.
      simpl app. cbv beta iota. rewrite (IH _ _ _ _ E). reflexivity.
Qed.

(** The scan does not depend on the character before it. *)
Lemma sub_loop_span_prev : forall f ma prev prev' s,
  Re.sub_loop f Re.no_flags (span_pattern d) (tag_template tag) ma prev s
  = Re.sub_loop f Re.no_flags (span_pattern d) (tag_template tag) ma prev' s.
Proof.
  induction f as [|f IH]; intros ma prev prev' s; [reflexivity|].
  cbn [Re.sub_loop].
  change (Re.rmatch Re.no_flags (span_pattern d) (Re.accept ma s) prev' s [])
    with (Re.rmatch Re.no_flags (span_pattern d) (Re.accept ma s) prev s []).
  reflexivity.
Qed.

(** The substitution works on each side of a line break apart. *)
Lemma sub_span_break (a b : str) :
  Re.sub Re.no_flags (span_pattern d) (tag_template tag) (a ++ nl :: b)
  = let* oa := Re.sub Re.no_flags (span_pattern d) (tag_template tag) a in
    let* ob := Re.sub Re.no_flags (span_pattern d) (tag_template tag) b in
    Ret (oa ++ nl :: ob).
Proof.
  destruct (ReFacts.sub_returns Re.no_flags (span_pattern d) (tag_template tag) a eq_refl)
    as [oa Ha].
  destruct (ReFacts.sub_returns Re.no_flags (span_pattern d) (tag_template tag) b eq_refl)
    as [ob Hb].
  rewrite Ha, Hb. cbn [bind].
  unfold Re.sub in *. simpl Re.check_template in *. cbn [bind] in *.
  replace (2 * List.length (a ++ nl :: b) + 2)
    with ((2 * List.length a + 2) + (2 * List.length b + 2))
    by (rewrite length_app; simpl; lia).
  apply sub_loop_with_tail; [|exact Ha].
  intros prev. now rewrite (sub_loop_span_prev _ _ prev None).
Qed.

End EmphasisLines.

(** X14: emphasis never spans a line break: each of the two emphasis
    substitutions, on a text with a line break in it, gives what it
    gives on the text before the break, the break, and what it gives
    on the text after it. *)
Theorem emphasis_line_by_line (d tag a b : str) :
  In (d, tag) [(lit "**", lit "strong"); (lit "*", lit "em")] ->
  Re.sub Re.no_flags (span_pattern d) (tag_template tag) (a ++ nl :: b)
  = let* oa := Re.sub Re.no_flags (span_pattern d) (tag_template tag) a in
    let* ob := Re.sub Re.no_flags (span_pattern d) (tag_template tag) b in
    Ret (oa ++ nl :: ob).
Proof.
  intros Hin. apply sub_span_break.
  simpl in Hin. destruct Hin as [[= <- <-]|[[= <- <-]|[]]]; reflexivity.
Qed.

Lemma emphasis_line_by_line_witness :
  In (lit "**", lit "strong") [(lit "**", lit "strong"); (lit "*", lit "em")] /\
  Re.sub Re.no_flags (span_pattern (lit "**")) (tag_template (lit "strong"))
    (lit "**a" ++ nl :: lit "**c** d")
  = Ret (lit "**a" ++ nl :: lit "<strong>c</strong> d").
Proof.
  split; [left; reflexivity|].
  exact (emphasis_line_by_line (lit "**") (lit "strong") (lit "**a") (lit "**c** d")
           (or_introl eq_refl)).
Defined.

(** ** No list item, no list *)

(** X15: list wrapping leaves the text as it is when no [<li>] is
    followed by a [</li>]: an opening tag alone, a closing tag alone,
    or a closing tag before an opening one do not make a list. *)
Theorem list_wrapping_without_items (s : str) :
  has_list_span s = false ->
  Re.sub Re.dotall list_pattern (tag_template (lit "ul")) s = Ret s.
Proof. apply sub_list_pattern_no_span. Qed.

Lemma list_wrapping_without_items_witness :
  has_list_span (lit "a</li>" ++ nl :: lit "<li>b") = false /\
  Re.sub Re.dotall list_pattern (tag_template (lit "ul"))
    (lit "a</li>" ++ nl :: lit "<li>b")
  = Ret (lit "a</li>" ++ nl :: lit "<li>b").
Proof.
  split; [reflexivity|].
  exact (list_wrapping_without_items (lit "a</li>" ++ nl :: lit "<li>b") eq_refl).
Defined.
